(** * Internal power of liberty cells (OpenSTA, liberty/InternalPower.cc)

    A shallow embedding of the three classes of [InternalPower.cc]:
    the builder [InternalPowerAttrs], the record [InternalPower] and the
    per-edge model [InternalPowerModel], with the properties of their
    axis resolution, their "no data" paths and their ownership protocol. *)

From Stdlib Require Import ZArith String List Floats.SpecFloat.
From stdpp Require Import base decidable option list gmap strings.
Import ListNotations.

(** ** Addresses and scalars *)

(** Heap addresses.  A C++ pointer is [ptr]: [None] is [nullptr]. *)
Definition loc := positive.
Definition ptr := option loc.

(** C++ [float].  The file never computes with floats, it only moves them
    and writes the literal [0.0]; a float is its IEEE-754 datum. *)
Definition float := spec_float.

(** The literal [0.0] (positive zero). *)
Definition float_zero : float := S754_zero false.

(** ** Outcomes of a call

    [criticalError(id, msg)] reports through the error facility of the
    tool.  Whether the facility returns to its caller is not decided in
    this file: a [Critical] node keeps the store at the moment of the
    report and the outcome of the code that runs when the facility
    returns. *)

Inductive Deref :=
| TableModel_ptr   (* InternalPowerModel::model_ *)
| TableAxis_ptr.   (* TableModel::axis1(), axis2(), axis3() *)

Inductive Fault :=
| NullDeref (what : Deref)     (* member access through nullptr *)
| Dangling (l : loc)           (* access to, or release of, an object that is not live *)
| Uninitialized.               (* read of a local that was never assigned *)

Inductive Outcome (St A : Type) : Type :=
| Normal (a : A)
| Critical (id : Z) (msg : string) (st : St) (resume : Outcome St A)
| Faulted (f : Fault).

Arguments Normal {St A} a.
Arguments Critical {St A} id msg st resume.
Arguments Faulted {St A} f.

Fixpoint obind {St A B} (o : Outcome St A) (k : A -> Outcome St B) : Outcome St B :=
  match o with
  | Normal a => k a
  | Critical id msg st resume => Critical id msg st (obind resume k)
  | Faulted f => Faulted f
  end.

(** Computations over a store [St]. *)
Definition M (St A : Type) : Type := St -> Outcome St (A * St).

Definition ret {St A} (a : A) : M St A := fun st => Normal (a, st).

Definition bind {St A B} (m : M St A) (k : A -> M St B) : M St B :=
  fun st => obind (m st) (fun r => k (fst r) (snd r)).

Definition get {St} : M St St := fun st => Normal (st, st).
Definition put {St} (st : St) : M St unit := fun _ => Normal (tt, st).
Definition modify {St} (f : St -> St) : M St unit := fun st => Normal (tt, f st).
Definition fault {St A} (f : Fault) : M St A := fun _ => Faulted f.

(** Modelled from the spec: the macro [criticalError] (Report.hh) is not
    part of the sources at hand; section 7: the shared fatal-error facility,
    called with a stable numeric identifier and a message.  Sections 7 and
    8 have it abort in the tool and return under a fault-injection harness;
    the [Critical] node serves both. *)
Definition criticalError {St} (id : Z) (msg : string) : M St unit :=
  fun st => Critical id msg st (Normal (tt, st)).

(** The value of a call that starts from store [st]: the store of the
    callee is dropped when it returns. *)
Definition eval {St A} (m : M St A) (st : St) : Outcome St A :=
  obind (m st) (fun r => Normal (fst r)).

Declare Scope exec_scope.
Delimit Scope exec_scope with exec.
Notation "x <- c1 ;; c2" := (bind c1 (fun x => c2))
  (at level 20, c1 at level 99, c2 at level 200, only parsing) : exec_scope.
Notation "c1 ;; c2" := (bind c1 (fun _ => c2))
  (at level 100, c2 at level 200, only parsing, right associativity) : exec_scope.
Local Open Scope exec_scope.

(** Observations of an outcome. *)

(** The fatal errors reported, in order, when every report returns. *)
Fixpoint reports {St A} (o : Outcome St A) : list (Z * string) :=
  match o with
  | Critical id msg _ resume => (id, msg) :: reports resume
  | _ => []
  end.

(** The value returned when every report returns. *)
Fixpoint returned {St A} (o : Outcome St A) : option A :=
  match o with
  | Normal a => Some a
  | Critical _ _ _ resume => returned resume
  | Faulted _ => None
  end.

(** The fault the call ends in, if any, when every report returns. *)
Fixpoint faulted {St A} (o : Outcome St A) : option Fault :=
  match o with
  | Normal _ => None
  | Critical _ _ _ resume => faulted resume
  | Faulted f => Some f
  end.

(** ** Edges *)

Module RiseFall.
(** Modelled from the spec: the class [RiseFall] (Transition.hh) is not
    part of the sources at hand; section 6: an edge selector with two
    values, rise and fall. *)
Inductive t := rise | fall.

(** Modelled from the spec: [RiseFall::index()], [riseIndex()],
    [fallIndex()] and [index_count] (Transition.hh); section 6: a stable
    two-valued index, rise before fall. *)
Definition index (rf : t) : nat :=
  match rf with rise => 0 | fall => 1 end.
Definition riseIndex : nat := index rise.
Definition fallIndex : nat := index fall.
Definition index_count : nat := 2.

(** Modelled from the spec: [RiseFall::range()] (Transition.hh); section
    6: the two edges in a deterministic iteration order. *)
Definition range : list t := [rise; fall].
End RiseFall.

(** A C array [T a[RiseFall::index_count]]: two slots, read and written by
    an index.  Every index used in InternalPower.cc is [riseIndex()],
    [fallIndex()] or [rf->index()], that is 0 or 1; the second branch is
    the slot of index 1. *)
Record EdgeArray (A : Type) := { at0 : A; at1 : A }.
Arguments at0 {A} _.
Arguments at1 {A} _.

Definition aget {A} (a : EdgeArray A) (i : nat) : A :=
  match i with 0 => at0 a | _ => at1 a end.

Definition aset {A} (a : EdgeArray A) (i : nat) (v : A) : EdgeArray A :=
  match i with
  | 0 => {| at0 := v; at1 := at1 a |}
  | _ => {| at0 := at0 a; at1 := v |}
  end.

(** ** Tables *)

(** Modelled from the spec: the enumeration [TableAxisVariable]
    (TableModel.hh) is not part of the sources at hand.  The five kinds
    that InternalPower.cc names keep their names; [other_variable] stands
    for the remaining kinds of the enumeration. *)
Inductive TableAxisVariable :=
| total_output_net_capacitance
| input_transition_time
| related_pin_transition
| constrained_pin_transition
| related_out_total_output_net_capacitance
| other_variable (tag : nat).

#[global] Instance TableAxisVariable_eq_dec : EqDecision TableAxisVariable.
Proof. solve_decision. Defined.

(** Modelled from the spec: [TableAxis] (TableModel.hh) is not part of
    the sources at hand; section 6: an axis descriptor exposes its declared
    variable kind. *)
Record TableAxis := { variable : TableAxisVariable }.

(** Modelled from the spec: [TableModel] (TableModel.hh) is not part of
    the sources at hand; section 6: the table engine exposes its declared
    order, up to three axis descriptors (each may be null), a value lookup
    and a formatted report.  Cells, corners and units are passed to it by
    pointer, as InternalPower.cc passes them. *)
Record TableModel := {
  order : Z;
  axis1 : option TableAxis;
  axis2 : option TableAxis;
  axis3 : option TableAxis;
  (* findValue(cell, pvt, value1, value2, value3) *)
  findValue : loc -> ptr -> float -> float -> float -> float;
  (* reportValue(result_name, cell, pvt, value1, comment1, value2, value3,
                 table_unit, digits) *)
  reportValue : string -> loc -> ptr -> float -> option string ->
                float -> float -> loc -> Z -> string
}.

(** ** Data members of the three classes (InternalPower.hh) *)

(** The header InternalPower.hh is not part of the sources at hand; the
    members of each class are those its constructor in InternalPower.cc
    initialises, with the types its member functions use them at. *)

Module InternalPowerModelData.
(** Modelled from the spec: the members of [InternalPowerModel]
    (InternalPower.hh); section 3: one wrapped table, or null.  The model
    owns the table and destroys it with itself ([~InternalPowerModel] runs
    [delete model_]): the table is a part of the model object. *)
Record t := { model_ : option TableModel }.
End InternalPowerModelData.

Module InternalPowerAttrsData.
(** Modelled from the spec: the members of [InternalPowerAttrs]
    (InternalPower.hh); section 3: a condition expression, two edge-model
    slots and a pg-pin name, each a pointer that may be null. *)
Record t := {
  when_ : ptr;                  (* FuncExpr * *)
  models_ : EdgeArray ptr;      (* InternalPowerModel *[2] *)
  related_pg_pin_ : ptr         (* const char * *)
}.
End InternalPowerAttrsData.

Module LibertyPort.
(** Modelled from the spec: [LibertyPort] (Liberty.hh) is not part of the
    sources at hand; section 6: a port exposes a back-reference to its
    owning cell. *)
Record t := { libertyCell : loc }.
End LibertyPort.

Module InternalPowerData.
(** Modelled from the spec: the members of [InternalPower]
    (InternalPower.hh); section 3: the two port references and the three
    fields taken over from a builder, all plain pointers. *)
Record t := {
  port_ : LibertyPort.t;
  related_port_ : LibertyPort.t;
  when_ : ptr;
  models_ : EdgeArray ptr;
  related_pg_pin_ : ptr
}.
End InternalPowerData.

(** ** The store *)

(** Modelled from the spec: [Units] (Units.hh) is not part of the sources
    at hand; section 6: the unit formatter of a library; [powerUnit()] is a
    pointer to its power unit. *)
Record Units := { powerUnit : loc }.

(** Modelled from the spec: [LibertyLibrary] (Liberty.hh) is not part of
    the sources at hand; section 6: a library gives access to its units. *)
Record LibertyLibrary := { units : Units }.

(** Modelled from the spec: [LibertyCell] (Liberty.hh) is not part of the
    sources at hand; sections 3 and 6: a cell gives access to its library
    and keeps the list of its internal powers in insertion order. *)
Record LibertyCell := {
  libertyLibrary : LibertyLibrary;
  internal_powers_ : list InternalPowerData.t
}.

(** The objects InternalPower.cc owns through pointers. *)
Inductive Object :=
| PowerModelObj (m : InternalPowerModelData.t)
| FuncExprObj                     (* a condition expression with its subexpressions *)
| StringObj (s : string).

(** One release of a heap object. *)
Inductive Release :=
| DeleteModel (l : loc)           (* delete on an InternalPowerModel * *)
| DeleteSubexprs (l : loc)        (* when->deleteSubexprs() *)
| StringDelete (l : loc).         (* stringDelete(str) *)

#[global] Instance Release_eq_dec : EqDecision Release.
Proof. solve_decision. Defined.

Record World := {
  objs : gmap loc Object;         (* the live owned objects *)
  released : list Release;        (* the releases so far, oldest first *)
  cells : gmap loc LibertyCell    (* the live cells *)
}.

Definition release (l : loc) (r : Release) : M World unit :=
  modify (fun w => {| objs := delete l (objs w);
                      released := released w ++ [r];
                      cells := cells w |}).

(** [delete p] on an [InternalPowerModel *]: nothing for [nullptr];
    otherwise the destructor runs (it deletes the wrapped table, which is
    part of the object) and the object is released.  Releasing an address
    that holds no live model is a fault. *)
Definition delete_model (p : ptr) : M World unit :=
  match p with
  | None => ret tt
  | Some l =>
      w <- get ;;
      match objs w !! l with
      | Some (PowerModelObj _) => release l (DeleteModel l)
      | _ => fault (Dangling l)
      end
  end.

(** Modelled from the spec: [stringDelete] (StringUtil.hh) is not part of
    the sources at hand; it releases an owned string, and is called on a
    null name as well (section 4.1, [setRelatedPgPin]), where it does
    nothing. *)
Definition stringDelete (p : ptr) : M World unit :=
  match p with
  | None => ret tt
  | Some l =>
      w <- get ;;
      match objs w !! l with
      | Some (StringObj _) => release l (StringDelete l)
      | _ => fault (Dangling l)
      end
  end.

(** Modelled from the spec: [FuncExpr::deleteSubexprs] (FuncExpr.hh) is
    not part of the sources at hand; section 6: the explicit teardown of
    the owned subexpression tree of a condition expression. *)
Definition deleteSubexprs (l : loc) : M World unit :=
  w <- get ;;
  match objs w !! l with
  | Some FuncExprObj => release l (DeleteSubexprs l)
  | _ => fault (Dangling l)
  end.

(** Modelled from the spec: [LibertyCell::addInternalPower] (Liberty.hh)
    is not part of the sources at hand; section 3: the record is appended
    to the internal-power list of the cell, insertion order preserved. *)
Definition addInternalPower (cell : loc) (power : InternalPowerData.t) : M World unit :=
  w <- get ;;
  match cells w !! cell with
  | Some c =>
      put {| objs := objs w;
             released := released w;
             cells := <[cell := {| libertyLibrary := libertyLibrary c;
                                   internal_powers_ := internal_powers_ c ++ [power] |}]>
                        (cells w) |}
  | None => fault (Dangling cell)
  end.


(** ** InternalPowerAttrs: the builder *)

Module InternalPowerAttrs.
Include InternalPowerAttrsData.

(* InternalPowerAttrs::InternalPowerAttrs() *)
Definition ctor : t :=
  {| when_ := None;
     models_ := {| at0 := None; at1 := None |};
     related_pg_pin_ := None |}.

(* InternalPowerAttrs::~InternalPowerAttrs(): the body is empty. *)
Definition dtor (this : t) : M World unit := ret tt.

Definition deleteContents (this : t) : M World unit :=
  let rise_model := aget (models_ this) RiseFall.riseIndex in
  let fall_model := aget (models_ this) RiseFall.fallIndex in
  delete_model rise_model ;;
  (if decide (fall_model <> rise_model)
   then delete_model fall_model
   else ret tt) ;;
  match when_ this with
  | Some w => deleteSubexprs w
  | None => ret tt
  end ;;
  stringDelete (related_pg_pin_ this).

Definition model (this : t) (rf : RiseFall.t) : ptr :=
  aget (models_ this) (RiseFall.index rf).

(* The accessors when() and relatedPgPin() of the header. *)
Definition when (this : t) : ptr := when_ this.
Definition relatedPgPin (this : t) : ptr := related_pg_pin_ this.

Definition setWhen (this : t) (when : ptr) : t :=
  {| when_ := when;
     models_ := models_ this;
     related_pg_pin_ := related_pg_pin_ this |}.

Definition setModel (this : t) (rf : RiseFall.t) (model : ptr) : t :=
  {| when_ := when_ this;
     models_ := aset (models_ this) (RiseFall.index rf) model;
     related_pg_pin_ := related_pg_pin_ this |}.

End InternalPowerAttrs.

(** ** InternalPowerModel: one table per edge *)

(** The three [float] locals that [power] and [reportPower] declare without
    a value and pass to [findAxisValues] by reference.  [None] is a local
    that has not been assigned. *)
Record AxisValues := {
  axis_value1 : option float;
  axis_value2 : option float;
  axis_value3 : option float
}.

Definition unassigned : AxisValues :=
  {| axis_value1 := None; axis_value2 := None; axis_value3 := None |}.

Definition assign1 (v : float) : M AxisValues unit :=
  modify (fun av => {| axis_value1 := Some v;
                       axis_value2 := axis_value2 av;
                       axis_value3 := axis_value3 av |}).
Definition assign2 (v : float) : M AxisValues unit :=
  modify (fun av => {| axis_value1 := axis_value1 av;
                       axis_value2 := Some v;
                       axis_value3 := axis_value3 av |}).
Definition assign3 (v : float) : M AxisValues unit :=
  modify (fun av => {| axis_value1 := axis_value1 av;
                       axis_value2 := axis_value2 av;
                       axis_value3 := Some v |}).

(** Reading a local by value. *)
Definition read (field : AxisValues -> option float) : M AxisValues float :=
  av <- get ;;
  match field av with
  | Some v => ret v
  | None => fault Uninitialized
  end.

Module InternalPowerModel.
Include InternalPowerModelData.

(* InternalPowerModel::InternalPowerModel(TableModel *model) *)
Definition ctor (model : option TableModel) : t := {| model_ := model |}.

Definition axisValue {St} (axis : option TableAxis) (in_slew load_cap : float)
  : M St float :=
  match axis with
  | None => fault (NullDeref TableAxis_ptr)
  | Some a =>
      let var := variable a in
      if decide (var = input_transition_time) then ret in_slew
      else if decide (var = total_output_net_capacitance) then ret load_cap
      else (criticalError 226 "unsupported table axes" ;;
            ret float_zero)
  end.

Definition findAxisValues (this : t) (in_slew load_cap : float) : M AxisValues unit :=
  match model_ this with
  | None => fault (NullDeref TableModel_ptr)
  | Some model =>
      match order model with
      | 0%Z =>
          assign1 float_zero ;;
          assign2 float_zero ;;
          assign3 float_zero
      | 1%Z =>
          v1 <- axisValue (axis1 model) in_slew load_cap ;; assign1 v1 ;;
          assign2 float_zero ;;
          assign3 float_zero
      | 2%Z =>
          v1 <- axisValue (axis1 model) in_slew load_cap ;; assign1 v1 ;;
          v2 <- axisValue (axis2 model) in_slew load_cap ;; assign2 v2 ;;
          assign3 float_zero
      | 3%Z =>
          v1 <- axisValue (axis1 model) in_slew load_cap ;; assign1 v1 ;;
          v2 <- axisValue (axis2 model) in_slew load_cap ;; assign2 v2 ;;
          v3 <- axisValue (axis3 model) in_slew load_cap ;; assign3 v3
      | _ =>
          assign1 float_zero ;;
          assign2 float_zero ;;
          assign3 float_zero ;;
          criticalError 225 "unsupported table order"
      end
  end.

Definition power (this : t) (cell : loc) (pvt : ptr) (in_slew load_cap : float)
  : Outcome AxisValues float :=
  match model_ this with
  | Some model =>
      eval (findAxisValues this in_slew load_cap ;;
            v1 <- read axis_value1 ;;
            v2 <- read axis_value2 ;;
            v3 <- read axis_value3 ;;
            ret (findValue model cell pvt v1 v2 v3))
           unassigned
  | None => Normal float_zero
  end.

(* cell->libertyLibrary() *)
Definition library_of (w : World) (cell : loc) : M AxisValues LibertyLibrary :=
  match cells w !! cell with
  | Some c => ret (libertyLibrary c)
  | None => fault (Dangling cell)
  end.

Definition reportPower (w : World) (this : t) (cell : loc) (pvt : ptr)
    (in_slew load_cap : float) (digits : Z) : Outcome AxisValues string :=
  match model_ this with
  | Some model =>
      eval (findAxisValues this in_slew load_cap ;;
            library <- library_of w cell ;;
            v1 <- read axis_value1 ;;
            v2 <- read axis_value2 ;;
            v3 <- read axis_value3 ;;
            ret (reportValue model "Power" cell pvt v1 None v2 v3
                             (powerUnit (units library)) digits))
           unassigned
  | None => Normal EmptyString
  end.

Definition checkAxis (axis : TableAxis) : bool :=
  let var := variable axis in
  bool_decide (var = constrained_pin_transition)
  || bool_decide (var = related_pin_transition)
  || bool_decide (var = related_out_total_output_net_capacitance).

Definition checkAxes (model : TableModel) : bool :=
  let axis_ok := true in
  let axis_ok :=
    match axis1 model with
    | Some a => axis_ok && checkAxis a
    | None => axis_ok
    end in
  let axis_ok :=
    match axis2 model with
    | Some a => axis_ok && checkAxis a
    | None => axis_ok
    end in
  let axis_ok := axis_ok && bool_decide (axis3 model = None) in
  axis_ok.
End InternalPowerModel.

(** ** InternalPower: the record *)

Module InternalPower.
Include InternalPowerData.

(** [models_] has no initialiser: before the loop it holds the
    [indeterminate] contents of its memory. *)
Definition ctor (indeterminate : EdgeArray ptr)
    (cell : loc) (port related_port : LibertyPort.t) (attrs : InternalPowerAttrs.t)
  : M World t :=
  let models :=
    foldl (fun ms rf =>
             let rf_index := RiseFall.index rf in
             aset ms rf_index (InternalPowerAttrs.model attrs rf))
          indeterminate RiseFall.range in
  let this := {| port_ := port;
                 related_port_ := related_port;
                 when_ := InternalPowerAttrs.when attrs;
                 models_ := models;
                 related_pg_pin_ := InternalPowerAttrs.relatedPgPin attrs |} in
  addInternalPower cell this ;;
  ret this.

(* InternalPower::~InternalPower(): the body is empty. *)
Definition dtor (this : t) : M World unit := ret tt.

Definition libertyCell (this : t) : loc :=
  LibertyPort.libertyCell (port_ this).

Definition power (w : World) (this : t) (rf : RiseFall.t) (pvt : ptr)
    (in_slew load_cap : float) : Outcome AxisValues float :=
  let model := aget (models_ this) (RiseFall.index rf) in
  match model with
  | Some l =>
      match objs w !! l with
      | Some (PowerModelObj m) =>
          InternalPowerModel.power m (libertyCell this) pvt in_slew load_cap
      | _ => Faulted (Dangling l)
      end
  | None => Normal float_zero
  end.
End InternalPower.

(** ** What a call to [findAxisValues] leaves in the three locals *)

(** The three values, once all are assigned. *)
Definition triple (av : AxisValues) : option (float * float * float) :=
  match axis_value1 av, axis_value2 av, axis_value3 av with
  | Some v1, Some v2, Some v3 => Some (v1, v2, v3)
  | _, _, _ => None
  end.

(** The value a call returns, when it returns. *)
Definition value {St A} (o : Outcome St (A * St)) : option A :=
  fst <$> returned o.

(** The axis values a call returns in its reference parameters. *)
Definition yields {A} (o : Outcome AxisValues (A * AxisValues))
  : option (float * float * float) :=
  returned o ≫= fun r => triple (snd r).

Definition zeros : AxisValues :=
  {| axis_value1 := Some float_zero;
     axis_value2 := Some float_zero;
     axis_value3 := Some float_zero |}.

(** The kinds [checkAxis] accepts. *)
Definition related_kind (v : TableAxisVariable) : Prop :=
  v = constrained_pin_transition
  \/ v = related_pin_transition
  \/ v = related_out_total_output_net_capacitance.

(** ** The builder and the store *)

Definition is_model (w : World) (p : ptr) : bool :=
  match p with
  | None => true
  | Some l => match objs w !! l with Some (PowerModelObj _) => true | _ => false end
  end.

Definition is_expr (w : World) (p : ptr) : bool :=
  match p with
  | None => true
  | Some l => match objs w !! l with Some FuncExprObj => true | _ => false end
  end.

Definition is_string (w : World) (p : ptr) : bool :=
  match p with
  | None => true
  | Some l => match objs w !! l with Some (StringObj _) => true | _ => false end
  end.

(** The fields of a builder have not been torn down: every pointer that is
    not null holds a live object of its class. *)
Definition intact (w : World) (a : InternalPowerAttrs.t) : bool :=
  is_model w (at0 (InternalPowerAttrs.models_ a))
  && is_model w (at1 (InternalPowerAttrs.models_ a))
  && is_expr w (InternalPowerAttrs.when_ a)
  && is_string w (InternalPowerAttrs.related_pg_pin_ a).

(** The releases that free an object the builder owns. *)
Definition frees (a : InternalPowerAttrs.t) (r : Release) : Prop :=
  match r with
  | DeleteModel l =>
      at0 (InternalPowerAttrs.models_ a) = Some l
      \/ at1 (InternalPowerAttrs.models_ a) = Some l
  | DeleteSubexprs l => InternalPowerAttrs.when_ a = Some l
  | StringDelete l => InternalPowerAttrs.related_pg_pin_ a = Some l
  end.

(** The addresses of the objects the builder owns. *)
Definition owned (a : InternalPowerAttrs.t) (l : loc) : Prop :=
  at0 (InternalPowerAttrs.models_ a) = Some l
  \/ at1 (InternalPowerAttrs.models_ a) = Some l
  \/ InternalPowerAttrs.when_ a = Some l
  \/ InternalPowerAttrs.related_pg_pin_ a = Some l.

(** The release of the object at [p], if there is one. *)
Definition release_of (mk : loc -> Release) (p : ptr) : list Release :=
  match p with
  | Some l => [mk l]
  | None => []
  end.

(** The teardown of a builder, in the words of section 4.1: the rise model
    is released; the fall model is released only if it is a distinct
    object; the subexpressions of the condition are released if there is a
    condition; the pg-pin string is released. *)
Definition teardown_releases (a : InternalPowerAttrs.t) : list Release :=
  let rise := at0 (InternalPowerAttrs.models_ a) in
  let fall := at1 (InternalPowerAttrs.models_ a) in
  release_of DeleteModel rise
  ++ (if decide (fall = rise) then [] else release_of DeleteModel fall)
  ++ release_of DeleteSubexprs (InternalPowerAttrs.when_ a)
  ++ release_of StringDelete (InternalPowerAttrs.related_pg_pin_ a).

(** The live objects once the object at [p], if any, is gone. *)
Definition without (p : ptr) (m : gmap loc Object) : gmap loc Object :=
  match p with
  | Some l => delete l m
  | None => m
  end.

(** The live objects once the four fields of the builder are gone. *)
Definition teardown_objs (a : InternalPowerAttrs.t) (m : gmap loc Object)
  : gmap loc Object :=
  without (InternalPowerAttrs.related_pg_pin_ a)
    (without (InternalPowerAttrs.when_ a)
       (without (at1 (InternalPowerAttrs.models_ a))
          (without (at0 (InternalPowerAttrs.models_ a)) m))).

(** ** Sample data: the scenarios of section 8 *)

Module Sample.
Definition slew_axis : TableAxis := {| variable := input_transition_time |}.
Definition load_axis : TableAxis := {| variable := total_output_net_capacitance |}.
Definition related_axis : TableAxis := {| variable := related_pin_transition |}.

(** A table engine that looks up nothing: it answers with its first axis
    value, and reports under the name it is given. *)
Definition table (n : Z) (a1 a2 a3 : option TableAxis) : TableModel :=
  {| order := n; axis1 := a1; axis2 := a2; axis3 := a3;
     findValue := fun _ _ v1 _ _ => v1;
     reportValue := fun name _ _ _ _ _ _ _ _ => name |}.

(* 1.5, 2.0, 0.8 and 3.2 in binary32 *)
Definition f1_5 : float := S754_finite false 12582912 (-23).
Definition f2_0 : float := S754_finite false 8388608 (-22).
Definition f0_8 : float := S754_finite false 13421773 (-24).
Definition f3_2 : float := S754_finite false 13421773 (-22).

Definition order1 : InternalPowerModel.t :=
  InternalPowerModel.ctor (Some (table 1 (Some slew_axis) None None)).
Definition order2 : InternalPowerModel.t :=
  InternalPowerModel.ctor (Some (table 2 (Some slew_axis) (Some load_axis) None)).
Definition order4 : InternalPowerModel.t :=
  InternalPowerModel.ctor (Some (table 4 (Some slew_axis) (Some load_axis) None)).

Definition library : LibertyLibrary := {| units := {| powerUnit := 9%positive |} |}.

(** A store with one model (at 1), one condition (at 2), one pg-pin name
    (at 3), a second model (at 4) and one cell (at 7). *)
Definition world : World :=
  {| objs := {[ 1%positive := PowerModelObj order1;
                2%positive := FuncExprObj;
                3%positive := StringObj "VDD";
                4%positive := PowerModelObj order2 ]};
     released := [];
     cells := {[ 7%positive := {| libertyLibrary := library;
                                  internal_powers_ := [] |} ]} |}.

Definition port : LibertyPort.t := {| LibertyPort.libertyCell := 7%positive |}.

(** A builder whose two edge slots hold the same model. *)
Definition shared : InternalPowerAttrs.t :=
  {| InternalPowerAttrs.when_ := Some 2%positive;
     InternalPowerAttrs.models_ := {| at0 := Some 1%positive; at1 := Some 1%positive |};
     InternalPowerAttrs.related_pg_pin_ := Some 3%positive |}.

(** A builder with two distinct models and no condition. *)
Definition distinct : InternalPowerAttrs.t :=
  {| InternalPowerAttrs.when_ := None;
     InternalPowerAttrs.models_ := {| at0 := Some 1%positive; at1 := Some 4%positive |};
     InternalPowerAttrs.related_pg_pin_ := Some 3%positive |}.

(** Scenario A: a rise model only. *)
Definition rise_only : InternalPower.t :=
  {| InternalPower.port_ := port;
     InternalPower.related_port_ := port;
     InternalPower.when_ := None;
     InternalPower.models_ := {| at0 := Some 1%positive; at1 := None |};
     InternalPower.related_pg_pin_ := None |}.
End Sample.

(** ** Tables that [findAxisValues] can resolve *)

(** The axes [findAxisValues] reads: the first [order] ones, on the orders
    its switch has a case for. *)
Definition axes_read (model : TableModel) : list (option TableAxis) :=
  match order model with
  | 1%Z => [axis1 model]
  | 2%Z => [axis1 model; axis2 model]
  | 3%Z => [axis1 model; axis2 model; axis3 model]
  | _ => []
  end.

Definition supported_order (model : TableModel) : bool :=
  bool_decide (0 <= order model <= 3)%Z.

Definition present (axis : option TableAxis) : bool :=
  match axis with Some _ => true | None => false end.

(** An axis is resolvable when it is there and of one of the two kinds
    [axisValue] has a branch for. *)
Definition resolvable (axis : option TableAxis) : bool :=
  match axis with
  | Some a =>
      bool_decide (variable a = input_transition_time)
      || bool_decide (variable a = total_output_net_capacitance)
  | None => false
  end.

Definition axes_present (model : TableModel) : bool :=
  forallb present (axes_read model).

Definition well_formed (model : TableModel) : bool :=
  supported_order model && forallb resolvable (axes_read model).

(** The scalar behind a resolvable axis. *)
Definition scalar (axis : option TableAxis) (in_slew load_cap : float) : float :=
  match axis with
  | Some a =>
      if decide (variable a = input_transition_time) then in_slew else load_cap
  | None => float_zero
  end.

(** The point at which a well-formed table is looked up. *)
Definition operating_point (model : TableModel) (in_slew load_cap : float)
  : float * float * float :=
  match axes_read model with
  | [a1] => (scalar a1 in_slew load_cap, float_zero, float_zero)
  | [a1; a2] => (scalar a1 in_slew load_cap, scalar a2 in_slew load_cap, float_zero)
  | [a1; a2; a3] =>
      (scalar a1 in_slew load_cap, scalar a2 in_slew load_cap,
       scalar a3 in_slew load_cap)
  | _ => (float_zero, float_zero, float_zero)
  end.

(** ** Liveness across releases *)

(** The pointer [p] is null or holds a live object of the class [k]. *)
Definition live (k : Object -> bool) (w : World) (p : ptr) : bool :=
  match p with
  | None => true
  | Some l => match objs w !! l with Some o => k o | None => false end
  end.

Definition model_obj (o : Object) : bool :=
  match o with PowerModelObj _ => true | _ => false end.
Definition expr_obj (o : Object) : bool :=
  match o with FuncExprObj => true | _ => false end.
Definition string_obj (o : Object) : bool :=
  match o with StringObj _ => true | _ => false end.

(** The store once the object at [p], if any, is released as [mk]. *)
Definition after (mk : loc -> Release) (p : ptr) (w : World) : World :=
  {| objs := without p (objs w);
     released := released w ++ release_of mk p;
     cells := cells w |}.

(** The fall model as [deleteContents] treats it: skipped when it is the
    rise model. *)
Definition fall_if_distinct (a : InternalPowerAttrs.t) : ptr :=
  if decide (at1 (InternalPowerAttrs.models_ a) = at0 (InternalPowerAttrs.models_ a))
  then None
  else at1 (InternalPowerAttrs.models_ a).

(** ** More sample data *)

Module Cases.
(** A table of order 1 without its axis. *)
Definition no_axis_table : TableModel := Sample.table 1 None None None.
Definition no_axis : InternalPowerModel.t := InternalPowerModel.ctor (Some no_axis_table).

(** A constant table that carries an axis of the related-power family. *)
Definition constant_table : TableModel :=
  Sample.table 0 (Some Sample.related_axis) None None.
Definition constant : InternalPowerModel.t :=
  InternalPowerModel.ctor (Some constant_table).

Definition cell : LibertyCell :=
  {| libertyLibrary := Sample.library; internal_powers_ := [] |}.

Definition junk : EdgeArray ptr := {| at0 := Some 5%positive; at1 := None |}.
End Cases.

(** * Properties *)

(** ** Observations and sequencing *)

Lemma returned_obind {St A B} (o : Outcome St A) (k : A -> Outcome St B) :
  returned (obind o k) = returned o ≫= fun a => returned (k a).
Proof. induction o as [a|id msg st o IH|f]; simpl; auto. Qed.

Lemma faulted_obind {St A B} (o : Outcome St A) (k : A -> Outcome St B) :
  faulted (obind o k) =
  match returned o with
  | Some a => faulted (k a)
  | None => faulted o
  end.
Proof. induction o as [a|id msg st o IH|f]; simpl; auto. Qed.

Lemma reports_obind {St A B} (o : Outcome St A) (k : A -> Outcome St B) :
  reports (obind o k) =
  reports o ++ match returned o with
               | Some a => reports (k a)
               | None => []
               end.
Proof.
  induction o as [a|id msg st o IH|f]; simpl; auto.
  by rewrite IH.
Qed.

(** A call ends in exactly one way: it returns or it faults. *)
Lemma returned_or_faulted {St A} (o : Outcome St A) :
  returned o = None <-> is_Some (faulted o).
Proof.
  induction o as [a|id msg st o IH|f]; simpl; auto.
  - split; [done | intros [? ?]; done].
  - split; [eauto | done].
Qed.

(** ** axisValue *)

Lemma axisValue_slew {St} (a : TableAxis) (in_slew load_cap : float) (st : St) :
  variable a = input_transition_time ->
  InternalPowerModel.axisValue (Some a) in_slew load_cap st = Normal (in_slew, st).
Proof.
  intros Hv. unfold InternalPowerModel.axisValue. rewrite Hv.
  rewrite decide_True by reflexivity. reflexivity.
Qed.

Lemma axisValue_cap {St} (a : TableAxis) (in_slew load_cap : float) (st : St) :
  variable a = total_output_net_capacitance ->
  InternalPowerModel.axisValue (Some a) in_slew load_cap st = Normal (load_cap, st).
Proof.
  intros Hv. unfold InternalPowerModel.axisValue. rewrite Hv.
  rewrite decide_False by discriminate.
  rewrite decide_True by reflexivity. reflexivity.
Qed.

Lemma axisValue_other {St} (a : TableAxis) (in_slew load_cap : float) (st : St) :
  variable a <> input_transition_time ->
  variable a <> total_output_net_capacitance ->
  InternalPowerModel.axisValue (Some a) in_slew load_cap st =
  Critical 226 "unsupported table axes" st (Normal (float_zero, st)).
Proof.
  intros H1 H2. unfold InternalPowerModel.axisValue.
  rewrite !decide_False by assumption. reflexivity.
Qed.

(** The value [axisValue] returns does not depend on the store it runs in. *)
Lemma axisValue_value {St St'} (axis : option TableAxis) (in_slew load_cap : float)
    (st : St) (st' : St') :
  value (InternalPowerModel.axisValue axis in_slew load_cap st) =
  value (InternalPowerModel.axisValue axis in_slew load_cap st').
Proof.
  destruct axis as [a|]; [|reflexivity].
  unfold InternalPowerModel.axisValue.
  repeat case_decide; reflexivity.
Qed.

(** C2: on an axis of kind input-transition-time [axisValue] returns
    [in_slew]; on an axis of kind total-output-net-capacitance it returns
    [load_cap]; on an axis of any other kind it reports the fatal error 226
    "unsupported table axes" and, when the report returns, returns 0.0.
    The store is left as it was. *)
Theorem axisValue_by_kind {St} (a : TableAxis) (in_slew load_cap : float) (st : St) :
  InternalPowerModel.axisValue (Some a) in_slew load_cap st =
  match variable a with
  | input_transition_time => Normal (in_slew, st)
  | total_output_net_capacitance => Normal (load_cap, st)
  | _ => Critical 226 "unsupported table axes" st (Normal (float_zero, st))
  end.
Proof.
  destruct (variable a) eqn:Hv;
    first [ by apply axisValue_slew
          | by apply axisValue_cap
          | apply axisValue_other; rewrite Hv; discriminate ].
Qed.

(** ** checkAxes *)

Lemma checkAxis_true (a : TableAxis) :
  InternalPowerModel.checkAxis a = true <-> related_kind (variable a).
Proof.
  unfold InternalPowerModel.checkAxis, related_kind.
  rewrite !orb_true_iff, !bool_decide_eq_true. tauto.
Qed.

(** C5: [checkAxes] is true exactly when axis1, if present, and axis2, if
    present, have a kind among constrained-pin transition, related-pin
    transition and related-output total-output-net-capacitance, and axis3
    is absent; a present axis3 makes it false. *)
Theorem checkAxes_true_iff (model : TableModel) :
  (InternalPowerModel.checkAxes model = true <->
     (forall a, axis1 model = Some a -> related_kind (variable a))
     /\ (forall a, axis2 model = Some a -> related_kind (variable a))
     /\ axis3 model = None)
  /\ (is_Some (axis3 model) -> InternalPowerModel.checkAxes model = false).
Proof.
  unfold InternalPowerModel.checkAxes. split.
  - destruct (axis1 model) as [a1|], (axis2 model) as [a2|]; simpl;
      rewrite ?andb_true_iff, bool_decide_eq_true, ?checkAxis_true;
      (split; [intros H; repeat split; try intros a [= <-]; tauto
              |intros (H1 & H2 & H3); eauto]).
  - intros [a3 H3]. rewrite H3, bool_decide_eq_false_2 by discriminate.
    apply andb_false_r.
Qed.

(** ** findAxisValues *)

(** The orders the switch of [findAxisValues] has no case for. *)
Lemma order_default (model : TableModel) (A : Type) (c0 c1 c2 c3 d : A) :
  (order model < 0 \/ 3 < order model)%Z ->
  match order model with
  | 0%Z => c0 | 1%Z => c1 | 2%Z => c2 | 3%Z => c3 | _ => d
  end = d.
Proof.
  intros H. destruct (order model) as [|p|p]; [lia| |reflexivity].
  destruct p as [[p|p|]|[p|p|]|]; try reflexivity; lia.
Qed.

Lemma order_cases (model : TableModel) :
  order model = 0%Z \/ order model = 1%Z \/ order model = 2%Z \/ order model = 3%Z
  \/ (order model < 0 \/ 3 < order model)%Z.
Proof. lia. Qed.

(** On the orders the switch has a case for, the only errors reported are
    those of [axisValue]. *)
Lemma findAxisValues_reports (this : InternalPowerModel.t) (model : TableModel)
    (in_slew load_cap : float) (st : AxisValues) :
  InternalPowerModel.model_ this = Some model ->
  (0 <= order model <= 3)%Z ->
  Forall (fun e => e = (226%Z, "unsupported table axes"%string))
         (reports (InternalPowerModel.findAxisValues this in_slew load_cap st)).
Proof.
  intros Hm Ho. unfold InternalPowerModel.findAxisValues. rewrite Hm.
  destruct (order_cases model) as [H|[H|[H|[H|H]]]];
    [rewrite H; clear H Ho ..|lia].
  - constructor.
  - destruct (axis1 model) as [[[]]|]; repeat constructor.
  - destruct (axis1 model) as [[[]]|], (axis2 model) as [[[]]|];
      repeat constructor.
  - destruct (axis1 model) as [[[]]|], (axis2 model) as [[[]]|],
             (axis3 model) as [[[]]|]; repeat constructor.
Qed.

(** C1: with a wrapped table, [findAxisValues] dispatches on the order of the
    table.  Order 0 leaves (0.0, 0.0, 0.0); order 1 leaves
    (axisValue(axis1), 0.0, 0.0); order 2 leaves (axisValue(axis1),
    axisValue(axis2), 0.0); order 3 leaves the three values of axisValue;
    any other order reports the fatal error 225 "unsupported table order"
    with the three values already set to 0.0 when the error is reported.
    On the orders 0 to 3 that error is not reported: the only reports are
    those of [axisValue]. *)
Theorem findAxisValues_by_order (this : InternalPowerModel.t) (model : TableModel)
    (in_slew load_cap : float) (st : AxisValues) :
  InternalPowerModel.model_ this = Some model ->
  let run := InternalPowerModel.findAxisValues this in_slew load_cap st in
  let axisValue axis := value (InternalPowerModel.axisValue axis in_slew load_cap st) in
  (order model = 0%Z -> run = Normal (tt, zeros))
  /\ (order model = 1%Z ->
      yields run =
      v1 ← axisValue (axis1 model); Some (v1, float_zero, float_zero))
  /\ (order model = 2%Z ->
      yields run =
      v1 ← axisValue (axis1 model); v2 ← axisValue (axis2 model);
      Some (v1, v2, float_zero))
  /\ (order model = 3%Z ->
      yields run =
      v1 ← axisValue (axis1 model); v2 ← axisValue (axis2 model);
      v3 ← axisValue (axis3 model); Some (v1, v2, v3))
  /\ ((order model < 0 \/ 3 < order model)%Z ->
      run = Critical 225 "unsupported table order" zeros (Normal (tt, zeros)))
  /\ ((0 <= order model <= 3)%Z ->
      Forall (fun e => e = (226%Z, "unsupported table axes"%string)) (reports run)).
Proof.
  intros Hm run axisValue. subst run axisValue.
  split; [|split; [|split; [|split; [|split]]]];
    [..|by apply findAxisValues_reports];
    unfold InternalPowerModel.findAxisValues; rewrite Hm; intros Ho.
  - rewrite Ho. reflexivity.
  - rewrite Ho.
    destruct (axis1 model) as [[[]]|]; reflexivity.
  - rewrite Ho.
    destruct (axis1 model) as [[[]]|], (axis2 model) as [[[]]|]; reflexivity.
  - rewrite Ho.
    destruct (axis1 model) as [[[]]|], (axis2 model) as [[[]]|],
             (axis3 model) as [[[]]|]; reflexivity.
  - rewrite order_default by assumption. reflexivity.
Qed.

(** When [findAxisValues] returns, the three locals are assigned. *)
Lemma findAxisValues_assigns (this : InternalPowerModel.t) (in_slew load_cap : float)
    (st : AxisValues) (r : unit * AxisValues) :
  returned (InternalPowerModel.findAxisValues this in_slew load_cap st) = Some r ->
  is_Some (triple (snd r)).
Proof.
  unfold InternalPowerModel.findAxisValues.
  destruct (InternalPowerModel.model_ this) as [model|]; [|discriminate].
  destruct (order_cases model) as [Ho|[Ho|[Ho|[Ho|Ho]]]];
    [rewrite Ho .. | rewrite order_default by assumption].
  - intros [= <-]. by eexists.
  - destruct (axis1 model) as [[[]]|]; intros [= <-]; by eexists.
  - destruct (axis1 model) as [[[]]|], (axis2 model) as [[[]]|];
      intros [= <-]; by eexists.
  - destruct (axis1 model) as [[[]]|], (axis2 model) as [[[]]|],
             (axis3 model) as [[[]]|]; intros [= <-]; by eexists.
  - intros [= <-]. by eexists.
Qed.

(** With a wrapped table, the only fault of [findAxisValues] is a null axis. *)
Lemma findAxisValues_faults (this : InternalPowerModel.t) (model : TableModel)
    (in_slew load_cap : float) (st : AxisValues) (f : Fault) :
  InternalPowerModel.model_ this = Some model ->
  faulted (InternalPowerModel.findAxisValues this in_slew load_cap st) = Some f ->
  f = NullDeref TableAxis_ptr.
Proof.
  intros Hm. unfold InternalPowerModel.findAxisValues. rewrite Hm.
  destruct (order_cases model) as [Ho|[Ho|[Ho|[Ho|Ho]]]];
    [rewrite Ho .. | rewrite order_default by assumption].
  - discriminate.
  - destruct (axis1 model) as [[[]]|]; intros [= <-]; reflexivity.
  - destruct (axis1 model) as [[[]]|], (axis2 model) as [[[]]|];
      intros [= <-]; reflexivity.
  - destruct (axis1 model) as [[[]]|], (axis2 model) as [[[]]|],
             (axis3 model) as [[[]]|]; intros [= <-]; reflexivity.
  - discriminate.
Qed.

(** ** InternalPowerModel::power and reportPower *)

Section Queries.
Variables (this : InternalPowerModel.t) (model : TableModel).
Variables (cell : loc) (pvt : ptr) (in_slew load_cap : float).
Hypothesis Hmodel : InternalPowerModel.model_ this = Some model.

Let run := InternalPowerModel.findAxisValues this in_slew load_cap unassigned.

(** [power] is [findAxisValues] followed by one call of the table engine
    on the three values. *)
Lemma power_unfold :
  InternalPowerModel.power this cell pvt in_slew load_cap =
  obind run (fun r =>
    match triple (snd r) with
    | Some v => Normal (findValue model cell pvt v.1.1 v.1.2 v.2)
    | None => Faulted Uninitialized
    end).
Proof.
  unfold InternalPowerModel.power, eval, bind. rewrite Hmodel. fold run.
  induction run as [[u av]|id msg st o IH|f]; simpl.
  - destruct av as [[v1|] [v2|] [v3|]]; reflexivity.
  - f_equal. apply IH.
  - reflexivity.
Qed.

Lemma power_returned :
  returned (InternalPowerModel.power this cell pvt in_slew load_cap) =
  v ← yields run; Some (findValue model cell pvt v.1.1 v.1.2 v.2).
Proof.
  rewrite power_unfold, returned_obind. unfold yields.
  destruct (returned run) as [r|]; [|reflexivity]. simpl.
  destruct (triple (snd r)); reflexivity.
Qed.

Lemma power_reports :
  reports (InternalPowerModel.power this cell pvt in_slew load_cap) = reports run.
Proof.
  rewrite power_unfold, reports_obind.
  destruct (returned run) as [r|]; [|apply app_nil_r].
  destruct (triple (snd r)); apply app_nil_r.
Qed.

Lemma power_faulted :
  faulted (InternalPowerModel.power this cell pvt in_slew load_cap) = faulted run.
Proof.
  rewrite power_unfold, faulted_obind.
  destruct (returned run) as [r|] eqn:Hr; [|reflexivity].
  destruct (findAxisValues_assigns _ _ _ _ _ Hr) as [v ->]. simpl.
  symmetry. apply eq_None_not_Some. intros Hf.
  apply returned_or_faulted in Hf. congruence.
Qed.

Variables (w : World) (digits : Z).

(** [reportPower] is [findAxisValues], the library of the cell, and one
    call of the report of the table engine on the three values. *)
Lemma reportPower_unfold :
  InternalPowerModel.reportPower w this cell pvt in_slew load_cap digits =
  obind run (fun r =>
    match cells w !! cell with
    | Some c =>
        match triple (snd r) with
        | Some v =>
            Normal (reportValue model "Power" cell pvt v.1.1 None v.1.2 v.2
                                (powerUnit (units (libertyLibrary c))) digits)
        | None => Faulted Uninitialized
        end
    | None => Faulted (Dangling cell)
    end).
Proof.
  unfold InternalPowerModel.reportPower, InternalPowerModel.library_of, eval, bind.
  rewrite Hmodel. fold run.
  induction run as [[u av]|id msg st o IH|f]; simpl.
  - destruct (cells w !! cell) as [c|]; [|reflexivity].
    destruct av as [[v1|] [v2|] [v3|]]; reflexivity.
  - f_equal. apply IH.
  - reflexivity.
Qed.

Lemma reportPower_returned (c : LibertyCell) :
  cells w !! cell = Some c ->
  returned (InternalPowerModel.reportPower w this cell pvt in_slew load_cap digits) =
  v ← yields run;
  Some (reportValue model "Power" cell pvt v.1.1 None v.1.2 v.2
                    (powerUnit (units (libertyLibrary c))) digits).
Proof.
  intros Hc. rewrite reportPower_unfold, returned_obind, Hc. unfold yields.
  destruct (returned run) as [r|]; [|reflexivity]. simpl.
  destruct (triple (snd r)); reflexivity.
Qed.

Lemma reportPower_reports :
  reports (InternalPowerModel.reportPower w this cell pvt in_slew load_cap digits) =
  reports run.
Proof.
  rewrite reportPower_unfold, reports_obind.
  destruct (returned run) as [r|]; [|apply app_nil_r].
  destruct (cells w !! cell); [|apply app_nil_r].
  destruct (triple (snd r)); apply app_nil_r.
Qed.

Lemma reportPower_faulted (f : Fault) :
  faulted (InternalPowerModel.reportPower w this cell pvt in_slew load_cap digits)
  = Some f ->
  faulted run = Some f \/ f = Dangling cell.
Proof.
  rewrite reportPower_unfold, faulted_obind.
  destruct (returned run) as [r|] eqn:Hr; [|auto].
  destruct (cells w !! cell); [|intros [= <-]; auto].
  destruct (findAxisValues_assigns _ _ _ _ _ Hr) as [v ->]. discriminate.
Qed.
End Queries.

(** C4: without a wrapped table, [power] returns 0.0 and [reportPower]
    returns the empty report, whatever the arguments.  With a table, both
    run [findAxisValues] and hand the three values it leaves to the table
    engine: [power] to [findValue], [reportPower] to [reportValue] (under
    the name "Power", with the power unit of the library of the cell); they
    report the errors [findAxisValues] reports, and no others. *)
Theorem power_and_reportPower (this : InternalPowerModel.t) (w : World)
    (cell : loc) (pvt : ptr) (in_slew load_cap : float) (digits : Z) :
  let run := InternalPowerModel.findAxisValues this in_slew load_cap unassigned in
  let power := InternalPowerModel.power this cell pvt in_slew load_cap in
  let report := InternalPowerModel.reportPower w this cell pvt in_slew load_cap digits in
  match InternalPowerModel.model_ this with
  | None => power = Normal float_zero /\ report = Normal EmptyString
  | Some model =>
      returned power =
        (v ← yields run; Some (findValue model cell pvt v.1.1 v.1.2 v.2))
      /\ reports power = reports run
      /\ faulted power = faulted run
      /\ reports report = reports run
      /\ forall c, cells w !! cell = Some c ->
           returned report =
             (v ← yields run;
              Some (reportValue model "Power" cell pvt v.1.1 None v.1.2 v.2
                                (powerUnit (units (libertyLibrary c))) digits))
  end.
Proof.
  intros run power report. subst run power report.
  destruct (InternalPowerModel.model_ this) as [model|] eqn:Hm.
  - split; [by apply power_returned|].
    split; [by eapply power_reports|].
    split; [by eapply power_faulted|].
    split; [by eapply reportPower_reports|].
    intros c Hc. by apply reportPower_returned.
  - unfold InternalPowerModel.power, InternalPowerModel.reportPower.
    rewrite Hm. split; reflexivity.
Qed.

(** C10: [findAxisValues] reads the wrapped table without a check of its
    own: on a model without a table it dereferences a null pointer.  [power]
    and [reportPower] call it only under their own check, so neither ever
    ends in a dereference of a null table. *)
Theorem null_table_is_guarded :
  (forall this in_slew load_cap st,
     InternalPowerModel.model_ this = None ->
     InternalPowerModel.findAxisValues this in_slew load_cap st =
     Faulted (NullDeref TableModel_ptr))
  /\ (forall this cell pvt in_slew load_cap,
        faulted (InternalPowerModel.power this cell pvt in_slew load_cap)
        <> Some (NullDeref TableModel_ptr))
  /\ (forall w this cell pvt in_slew load_cap digits,
        faulted (InternalPowerModel.reportPower w this cell pvt in_slew load_cap digits)
        <> Some (NullDeref TableModel_ptr)).
Proof.
  repeat split.
  - intros this in_slew load_cap st Hm.
    unfold InternalPowerModel.findAxisValues. by rewrite Hm.
  - intros this cell pvt in_slew load_cap Hf.
    destruct (InternalPowerModel.model_ this) as [model|] eqn:Hm.
    + rewrite (power_faulted _ _ _ _ _ _ Hm) in Hf.
      by apply (findAxisValues_faults _ _ _ _ _ _ Hm) in Hf.
    + unfold InternalPowerModel.power in Hf. by rewrite Hm in Hf.
  - intros w this cell pvt in_slew load_cap digits Hf.
    destruct (InternalPowerModel.model_ this) as [model|] eqn:Hm.
    + apply (reportPower_faulted _ _ _ _ _ _ Hm) in Hf as [Hf|Hf]; [|done].
      by apply (findAxisValues_faults _ _ _ _ _ _ Hm) in Hf.
    + unfold InternalPowerModel.reportPower in Hf. by rewrite Hm in Hf.
Qed.

(** ** InternalPower::power *)

(** C3: when the record has no model for the edge, [power] returns 0.0 and
    reports nothing; otherwise it is the [power] of the model of that edge,
    on the owning cell of the record and the corner, slew and load it was
    given. *)
Theorem record_power (w : World) (this : InternalPower.t) (rf : RiseFall.t)
    (pvt : ptr) (in_slew load_cap : float) :
  (aget (InternalPower.models_ this) (RiseFall.index rf) = None ->
   InternalPower.power w this rf pvt in_slew load_cap = Normal float_zero)
  /\ (forall l m,
        aget (InternalPower.models_ this) (RiseFall.index rf) = Some l ->
        objs w !! l = Some (PowerModelObj m) ->
        InternalPower.power w this rf pvt in_slew load_cap =
        InternalPowerModel.power m (LibertyPort.libertyCell (InternalPower.port_ this))
                                 pvt in_slew load_cap).
Proof.
  unfold InternalPower.power. split.
  - intros ->. reflexivity.
  - intros l m -> ->. reflexivity.
Qed.

(** ** Teardown of the builder *)

Lemma is_model_live (w : World) (l : loc) :
  is_model w (Some l) = true -> exists m, objs w !! l = Some (PowerModelObj m).
Proof. simpl. destruct (objs w !! l) as [[m| |s]|]; try discriminate. eauto. Qed.

Lemma is_expr_live (w : World) (l : loc) :
  is_expr w (Some l) = true -> objs w !! l = Some FuncExprObj.
Proof. simpl. by destruct (objs w !! l) as [[m| |s]|]. Qed.

Lemma is_string_live (w : World) (l : loc) :
  is_string w (Some l) = true -> exists s, objs w !! l = Some (StringObj s).
Proof. simpl. destruct (objs w !! l) as [[m| |s]|]; try discriminate. eauto. Qed.

Lemma delete_model_live (w : World) (l : loc) (m : InternalPowerModelData.t) :
  objs w !! l = Some (PowerModelObj m) ->
  delete_model (Some l) w =
  Normal (tt, {| objs := delete l (objs w);
                 released := released w ++ [DeleteModel l];
                 cells := cells w |}).
Proof. intros H. unfold delete_model, bind, get. simpl. by rewrite H. Qed.

Lemma deleteSubexprs_live (w : World) (l : loc) :
  objs w !! l = Some FuncExprObj ->
  deleteSubexprs l w =
  Normal (tt, {| objs := delete l (objs w);
                 released := released w ++ [DeleteSubexprs l];
                 cells := cells w |}).
Proof. intros H. unfold deleteSubexprs, bind, get. simpl. by rewrite H. Qed.

Lemma stringDelete_live (w : World) (l : loc) (s : string) :
  objs w !! l = Some (StringObj s) ->
  stringDelete (Some l) w =
  Normal (tt, {| objs := delete l (objs w);
                 released := released w ++ [StringDelete l];
                 cells := cells w |}).
Proof. intros H. unfold stringDelete, bind, get. simpl. by rewrite H. Qed.

Lemma bind_Normal {St A B} (m : M St A) (k : A -> M St B) (st st' : St) (a : A) :
  m st = Normal (a, st') -> bind m k st = k a st'.
Proof. intros H. unfold bind. by rewrite H. Qed.

Lemma delete_model_null (w : World) : delete_model None w = Normal (tt, w).
Proof. reflexivity. Qed.

Lemma stringDelete_null (w : World) : stringDelete None w = Normal (tt, w).
Proof. reflexivity. Qed.

Lemma ret_run {St A} (a : A) (st : St) : ret a st = Normal (a, st).
Proof. reflexivity. Qed.

Local Opaque delete_model deleteSubexprs stringDelete.

(** One step of a teardown: the next release is of a live object. *)
Ltac still_live :=
  simpl; rewrite ?lookup_delete_ne by congruence; eassumption.

Ltac teardown_step :=
  first [ eapply delete_model_live; still_live
        | eapply deleteSubexprs_live; still_live
        | eapply stringDelete_live; still_live
        | apply delete_model_null
        | apply stringDelete_null
        | apply ret_run ].

(** The run of [deleteContents] on a builder whose fields are intact. *)
Lemma deleteContents_run (w : World) (a : InternalPowerAttrs.t) :
  intact w a = true ->
  InternalPowerAttrs.deleteContents a w =
  Normal (tt, {| objs := teardown_objs a (objs w);
                 released := released w ++ teardown_releases a;
                 cells := cells w |}).
Proof.
  destruct a as [when [rise fall] pg]. unfold intact. simpl.
  rewrite !andb_true_iff. intros [[[Hr Hf] Hw] Hp].
  unfold InternalPowerAttrs.deleteContents, teardown_objs, teardown_releases.
  simpl.
  destruct rise as [r|], fall as [f|], when as [e|], pg as [p|];
    repeat match goal with
    | H : is_model _ (Some _) = true |- _ => apply is_model_live in H as [? H]
    | H : is_expr _ (Some _) = true |- _ => apply is_expr_live in H
    | H : is_string _ (Some _) = true |- _ => apply is_string_live in H as [? H]
    end;
    repeat case_decide; simplify_eq; try congruence;
    repeat (erewrite bind_Normal by teardown_step);
    first [ erewrite delete_model_live by still_live
          | erewrite deleteSubexprs_live by still_live
          | erewrite stringDelete_live by still_live
          | rewrite delete_model_null | rewrite stringDelete_null | rewrite ret_run ];
    simpl; rewrite <- ?app_assoc; simpl; rewrite ?app_nil_r, ?delete_delete_eq;
    try reflexivity.
  all: destruct w; reflexivity.
Qed.

Local Transparent delete_model deleteSubexprs stringDelete.

Lemma teardown_releases_NoDup (a : InternalPowerAttrs.t) :
  NoDup (teardown_releases a).
Proof.
  destruct a as [[e|] [[r|] [f|]] [p|]]; unfold teardown_releases; simpl;
    repeat case_decide; simpl;
    rewrite ?NoDup_cons, ?elem_of_cons, ?elem_of_nil;
    repeat split; try apply NoDup_nil_2; intuition congruence.
Qed.

Lemma teardown_releases_frees (a : InternalPowerAttrs.t) (r : Release) :
  r ∈ teardown_releases a <-> frees a r.
Proof.
  destruct a as [[e|] [[r1|] [f|]] [p|]]; unfold teardown_releases; simpl;
    repeat case_decide; simpl;
    rewrite ?elem_of_cons, ?elem_of_nil;
    destruct r; simpl; intuition congruence.
Qed.

Lemma teardown_objs_owned (a : InternalPowerAttrs.t) (m : gmap loc Object) (l : loc) :
  owned a l -> teardown_objs a m !! l = None.
Proof.
  destruct a as [[e|] [[r|] [f|]] [p|]]; unfold owned, teardown_objs; simpl;
    intros H; rewrite ?lookup_delete;
    repeat (destruct (decide _) as [?|?]); intuition congruence.
Qed.

Lemma teardown_objs_other (a : InternalPowerAttrs.t) (m : gmap loc Object) (l : loc) :
  ~ owned a l -> teardown_objs a m !! l = m !! l.
Proof.
  destruct a as [[e|] [[r|] [f|]] [p|]]; unfold owned, teardown_objs; simpl;
    intros H; rewrite ?lookup_delete;
    repeat (destruct (decide _) as [?|?]); intuition congruence.
Qed.

(** C6: the teardown of a builder whose fields are intact releases each
    object the builder owns exactly once, and nothing else: one release for
    a model that sits in both edge slots, one each for two distinct models,
    the subexpressions of the condition only if there is a condition, and
    the pg-pin string.  Afterwards none of these objects is live, and every
    other object and every cell is as before. *)
Theorem deleteContents_releases_once (w : World) (a : InternalPowerAttrs.t) :
  intact w a = true ->
  exists w' rs,
    InternalPowerAttrs.deleteContents a w = Normal (tt, w')
    /\ released w' = released w ++ rs
    /\ NoDup rs
    /\ (forall r, r ∈ rs <-> frees a r)
    /\ (forall l, owned a l -> objs w' !! l = None)
    /\ (forall l, ~ owned a l -> objs w' !! l = objs w !! l)
    /\ cells w' = cells w.
Proof.
  intros Hi. eexists _, (teardown_releases a).
  split; [by apply deleteContents_run|]. simpl.
  split; [reflexivity|].
  split; [apply teardown_releases_NoDup|].
  split; [apply teardown_releases_frees|].
  split; [apply teardown_objs_owned|].
  split; [apply teardown_objs_other|reflexivity].
Qed.

(** ** Construction and destruction *)

(** The slots the constructor loop fills are those of the builder, whatever
    the array held before. *)
Lemma ctor_models (indeterminate : EdgeArray ptr) (attrs : InternalPowerAttrs.t) :
  foldl (fun ms rf => aset ms (RiseFall.index rf) (InternalPowerAttrs.model attrs rf))
        indeterminate RiseFall.range
  = InternalPowerAttrs.models_ attrs.
Proof.
  unfold InternalPowerAttrs.model. by destruct (InternalPowerAttrs.models_ attrs).
Qed.

(** C7: the constructor keeps the two port references, takes the condition,
    the two edge models and the pg-pin name of the builder as they are (the
    same addresses), and changes the store in one place only: the new
    record is appended to the internal powers of the cell.  No object is
    released and the fields of the builder stay as they were. *)
Theorem ctor_takes_over (indeterminate : EdgeArray ptr) (cell : loc)
    (port related_port : LibertyPort.t) (attrs : InternalPowerAttrs.t)
    (w : World) (c : LibertyCell) :
  cells w !! cell = Some c ->
  let this := {| InternalPower.port_ := port;
                 InternalPower.related_port_ := related_port;
                 InternalPower.when_ := InternalPowerAttrs.when_ attrs;
                 InternalPower.models_ := InternalPowerAttrs.models_ attrs;
                 InternalPower.related_pg_pin_ :=
                   InternalPowerAttrs.related_pg_pin_ attrs |} in
  let w' := {| objs := objs w;
               released := released w;
               cells := <[cell := {| libertyLibrary := libertyLibrary c;
                                     internal_powers_ := internal_powers_ c ++ [this] |}]>
                          (cells w) |} in
  InternalPower.ctor indeterminate cell port related_port attrs w = Normal (this, w')
  /\ intact w' attrs = intact w attrs.
Proof.
  intros Hc this w'. split; [|reflexivity].
  unfold InternalPower.ctor. rewrite ctor_models.
  unfold addInternalPower, bind, get, put, ret. simpl. by rewrite Hc.
Qed.

(** C8: the destructor of a record releases nothing: the store after it is
    the store before it, so the condition, the two edge models and the
    pg-pin name are neither freed nor changed. *)
Theorem record_dtor_keeps_all (this : InternalPower.t) (w : World) :
  InternalPower.dtor this w = Normal (tt, w).
Proof. reflexivity. Qed.

(** C9: the destructor of a builder releases nothing.  A builder whose
    fields went to a record can be destroyed: the call returns, nothing is
    released and the fields, now those of the record, stay intact.  It is
    [deleteContents] that releases them. *)
Theorem builder_dtor_keeps_all :
  (forall attrs w, InternalPowerAttrs.dtor attrs w = Normal (tt, w))
  /\ (forall indeterminate cell port related_port attrs w c,
        cells w !! cell = Some c ->
        exists this w',
          (this <- InternalPower.ctor indeterminate cell port related_port attrs ;;
           InternalPowerAttrs.dtor attrs ;;
           ret this) w = Normal (this, w')
          /\ released w' = released w
          /\ objs w' = objs w
          /\ intact w' attrs = intact w attrs)
  /\ (forall attrs w l,
        intact w attrs = true -> owned attrs l ->
        exists w',
          InternalPowerAttrs.deleteContents attrs w = Normal (tt, w')
          /\ objs w' !! l = None).
Proof.
  repeat split.
  - intros ind cell port related_port attrs w c Hc.
    eexists _, _. split.
    + unfold InternalPower.ctor. rewrite ctor_models.
      unfold addInternalPower, InternalPowerAttrs.dtor, bind, get, put, ret.
      simpl. rewrite Hc. reflexivity.
    + simpl. auto.
  - intros attrs w l Hi Ho. eexists. split; [by apply deleteContents_run|].
    simpl. by apply teardown_objs_owned.
Qed.

(** ** The scenarios of section 8 and instances of the theorems *)

(** Scenario B: slew 0.8 and load 3.2 on a table over (input transition
    time, total output net capacitance) resolve to (0.8, 3.2, 0.0). *)
Lemma findAxisValues_by_order_witness :
  InternalPowerModel.model_ Sample.order2
  = Some (Sample.table 2 (Some Sample.slew_axis) (Some Sample.load_axis) None)
  /\ yields (InternalPowerModel.findAxisValues Sample.order2 Sample.f0_8 Sample.f3_2
                                              unassigned)
     = Some (Sample.f0_8, Sample.f3_2, float_zero).
Proof.
  split; [reflexivity|].
  exact (proj1 (proj2 (proj2
           (findAxisValues_by_order Sample.order2 _ Sample.f0_8 Sample.f3_2
                                    unassigned eq_refl)))
           eq_refl).
Defined.

(** Scenario A: the rise edge has a model of order 1 over the input
    transition time, the fall edge has none. *)
Example scenario_A_rise :
  InternalPower.power Sample.world Sample.rise_only RiseFall.rise None
                      Sample.f1_5 Sample.f2_0
  = Normal (findValue (Sample.table 1 (Some Sample.slew_axis) None None)
                      7%positive None Sample.f1_5 float_zero float_zero).
Proof. reflexivity. Qed.

Example scenario_A_fall :
  InternalPower.power Sample.world Sample.rise_only RiseFall.fall None
                      Sample.f1_5 Sample.f2_0
  = Normal float_zero.
Proof. reflexivity. Qed.

(** Scenario C: on a table of order 4 the error is reported before the
    table engine is called; the engine is called, on three zeros, only if
    the report returns. *)
Example scenario_C :
  InternalPowerModel.power Sample.order4 7%positive None Sample.f0_8 Sample.f3_2
  = Critical 225 "unsupported table order" zeros
      (Normal (findValue (Sample.table 4 (Some Sample.slew_axis) (Some Sample.load_axis) None)
                         7%positive None float_zero float_zero float_zero)).
Proof. reflexivity. Qed.

(** An axis of the related-power family is not one [axisValue] resolves. *)
Example axisValue_related_axis :
  InternalPowerModel.axisValue (Some Sample.related_axis) Sample.f0_8 Sample.f3_2 unassigned
  = Critical 226 "unsupported table axes" unassigned (Normal (float_zero, unassigned)).
Proof. reflexivity. Qed.

Example reportPower_order2 :
  InternalPowerModel.reportPower Sample.world Sample.order2 7%positive None
                                 Sample.f0_8 Sample.f3_2 3
  = Normal "Power"%string.
Proof. reflexivity. Qed.

(** Teardown with one model in both slots: one release of the model. *)
Example teardown_shared :
  InternalPowerAttrs.deleteContents Sample.shared Sample.world
  = Normal (tt, {| objs := {[ 4%positive := PowerModelObj Sample.order2 ]};
                   released := [DeleteModel 1%positive; DeleteSubexprs 2%positive;
                                StringDelete 3%positive];
                   cells := cells Sample.world |}).
Proof. reflexivity. Qed.

(** Teardown with two distinct models: one release of each. *)
Example teardown_distinct :
  InternalPowerAttrs.deleteContents Sample.distinct Sample.world
  = Normal (tt, {| objs := {[ 2%positive := FuncExprObj ]};
                   released := [DeleteModel 1%positive; DeleteModel 4%positive;
                                StringDelete 3%positive];
                   cells := cells Sample.world |}).
Proof. reflexivity. Qed.

(** A second teardown of the same builder releases a model that is gone. *)
Example teardown_twice :
  (InternalPowerAttrs.deleteContents Sample.shared ;;
   InternalPowerAttrs.deleteContents Sample.shared) Sample.world
  = Faulted (Dangling 1%positive).
Proof. reflexivity. Qed.

Lemma deleteContents_releases_once_witness :
  intact Sample.world Sample.shared = true
  /\ exists w' rs,
       InternalPowerAttrs.deleteContents Sample.shared Sample.world = Normal (tt, w')
       /\ released w' = released Sample.world ++ rs
       /\ NoDup rs
       /\ (forall r, r ∈ rs <-> frees Sample.shared r)
       /\ (forall l, owned Sample.shared l -> objs w' !! l = None)
       /\ (forall l, ~ owned Sample.shared l -> objs w' !! l = objs Sample.world !! l)
       /\ cells w' = cells Sample.world.
Proof.
  split; [reflexivity|].
  apply (deleteContents_releases_once Sample.world Sample.shared). reflexivity.
Defined.

Lemma ctor_takes_over_witness :
  cells Sample.world !! 7%positive
  = Some {| libertyLibrary := Sample.library; internal_powers_ := [] |}
  /\ exists this w',
       InternalPower.ctor {| at0 := Some 5%positive; at1 := None |} 7%positive
                          Sample.port Sample.port Sample.shared Sample.world
       = Normal (this, w')
       /\ InternalPower.models_ this = InternalPowerAttrs.models_ Sample.shared
       /\ (internal_powers_ <$> cells w' !! 7%positive) = Some [this]
       /\ objs w' = objs Sample.world
       /\ released w' = released Sample.world.
Proof.
  split; [reflexivity|].
  eexists _, _. split.
  - exact (proj1 (ctor_takes_over {| at0 := Some 5%positive; at1 := None |} 7%positive
                    Sample.port Sample.port Sample.shared Sample.world _ eq_refl)).
  - repeat split.
Defined.

(** * Further properties *)

(** ** Queries on any table *)

Lemma axes_read_default (model : TableModel) :
  (order model < 0 \/ 3 < order model)%Z -> axes_read model = [].
Proof. intros Ho. unfold axes_read. by apply order_default. Qed.

(** The cases of the switch of [findAxisValues], with the axes it reads. *)
Ltac by_order model Hm :=
  unfold InternalPowerModel.findAxisValues, axes_present, well_formed,
         supported_order, operating_point;
  rewrite ?Hm;
  let Ho := fresh "Ho" in
  destruct (order_cases model) as [Ho|[Ho|[Ho|[Ho|Ho]]]];
  [ unfold axes_read; rewrite ?Ho ..
  | rewrite ?order_default, ?(axes_read_default model Ho) by exact Ho;
    rewrite ?bool_decide_eq_false_2 by lia ].

(** X1: what [findAxisValues] does is the same whatever the three
    reference parameters held before the call. *)
Theorem findAxisValues_overwrites (this : InternalPowerModel.t)
    (in_slew load_cap : float) (st st' : AxisValues) :
  returned (InternalPowerModel.findAxisValues this in_slew load_cap st)
  = returned (InternalPowerModel.findAxisValues this in_slew load_cap st')
  /\ reports (InternalPowerModel.findAxisValues this in_slew load_cap st)
     = reports (InternalPowerModel.findAxisValues this in_slew load_cap st')
  /\ faulted (InternalPowerModel.findAxisValues this in_slew load_cap st)
     = faulted (InternalPowerModel.findAxisValues this in_slew load_cap st').
Proof.
  destruct (InternalPowerModel.model_ this) as [model|] eqn:Hm;
    [|unfold InternalPowerModel.findAxisValues; rewrite Hm; done].
  by_order model Hm.
  - done.
  - destruct (axis1 model) as [[[]]|]; done.
  - destruct (axis1 model) as [[[]]|], (axis2 model) as [[[]]|]; done.
  - destruct (axis1 model) as [[[]]|], (axis2 model) as [[[]]|],
             (axis3 model) as [[[]]|]; done.
  - done.
Qed.

(** The fault of [findAxisValues] on a table: a null axis among those it
    reads, and nothing else. *)
Lemma findAxisValues_faulted (this : InternalPowerModel.t) (model : TableModel)
    (in_slew load_cap : float) (st : AxisValues) :
  InternalPowerModel.model_ this = Some model ->
  faulted (InternalPowerModel.findAxisValues this in_slew load_cap st)
  = if axes_present model then None else Some (NullDeref TableAxis_ptr).
Proof.
  intros Hm. by_order model Hm.
  - done.
  - destruct (axis1 model) as [[[]]|]; done.
  - destruct (axis1 model) as [[[]]|], (axis2 model) as [[[]]|]; done.
  - destruct (axis1 model) as [[[]]|], (axis2 model) as [[[]]|],
             (axis3 model) as [[[]]|]; done.
  - done.
Qed.

(** X2: [power] and [reportPower] never read a local that was not
    assigned.  [power] faults exactly when one of the axes the order asks
    for is null; [reportPower] can fault on that, or on a cell that is not
    live, and on nothing else. *)
Theorem queries_fault_only_on_null_axis (this : InternalPowerModel.t)
    (model : TableModel) (w : World) (cell : loc) (pvt : ptr)
    (in_slew load_cap : float) (digits : Z) :
  InternalPowerModel.model_ this = Some model ->
  faulted (InternalPowerModel.power this cell pvt in_slew load_cap)
  = (if axes_present model then None else Some (NullDeref TableAxis_ptr))
  /\ forall f,
       faulted (InternalPowerModel.reportPower w this cell pvt in_slew load_cap digits)
       = Some f ->
       (f = NullDeref TableAxis_ptr /\ axes_present model = false)
       \/ (f = Dangling cell /\ cells w !! cell = None).
Proof.
  intros Hm. split.
  - rewrite (power_faulted _ _ _ _ _ _ Hm). by apply findAxisValues_faulted.
  - intros f. rewrite (reportPower_unfold _ _ _ _ _ _ Hm), faulted_obind.
    rewrite (findAxisValues_faulted _ _ _ _ _ Hm).
    destruct (returned _) as [r|] eqn:Hr.
    + destruct (cells w !! cell) as [c|]; [|intros [= <-]; auto].
      destruct (findAxisValues_assigns _ _ _ _ _ Hr) as [v ->]. done.
    + destruct (axes_present model); [done|]. intros [= <-]. auto.
Qed.

(** The run of [findAxisValues] on a well-formed table. *)
Lemma findAxisValues_well_formed (this : InternalPowerModel.t) (model : TableModel)
    (in_slew load_cap : float) (st : AxisValues) :
  InternalPowerModel.model_ this = Some model ->
  well_formed model = true ->
  InternalPowerModel.findAxisValues this in_slew load_cap st =
  Normal (tt, {| axis_value1 := Some (operating_point model in_slew load_cap).1.1;
                 axis_value2 := Some (operating_point model in_slew load_cap).1.2;
                 axis_value3 := Some (operating_point model in_slew load_cap).2 |}).
Proof.
  intros Hm. by_order model Hm; simpl.
  - done.
  - destruct (axis1 model) as [[[]]|]; done.
  - destruct (axis1 model) as [[[]]|], (axis2 model) as [[[]]|]; done.
  - destruct (axis1 model) as [[[]]|], (axis2 model) as [[[]]|],
             (axis3 model) as [[[]]|]; done.
  - done.
Qed.

(** On a table that is not well-formed [findAxisValues] reports or faults. *)
Lemma findAxisValues_ill_formed (this : InternalPowerModel.t) (model : TableModel)
    (in_slew load_cap : float) (st : AxisValues) (r : unit * AxisValues) :
  InternalPowerModel.model_ this = Some model ->
  InternalPowerModel.findAxisValues this in_slew load_cap st = Normal r ->
  well_formed model = true.
Proof.
  intros Hm. by_order model Hm; simpl.
  - done.
  - destruct (axis1 model) as [[[]]|]; done.
  - destruct (axis1 model) as [[[]]|], (axis2 model) as [[[]]|]; done.
  - destruct (axis1 model) as [[[]]|], (axis2 model) as [[[]]|],
             (axis3 model) as [[[]]|]; done.
  - done.
Qed.

(** X3: [power] returns without a report and without a fault exactly on
    the well-formed tables (order 0 to 3, the axes of the order present
    and of a kind [axisValue] resolves); its value is then the lookup of
    the table at the operating point: the slew or the load for each axis of
    the order, 0.0 for the others.  On a table of order 0 it does not
    depend on the slew and the load. *)
Theorem power_well_formed (this : InternalPowerModel.t) (model : TableModel)
    (cell : loc) (pvt : ptr) (in_slew load_cap : float) :
  InternalPowerModel.model_ this = Some model ->
  ((exists v, InternalPowerModel.power this cell pvt in_slew load_cap = Normal v)
   <-> well_formed model = true)
  /\ (well_formed model = true ->
      InternalPowerModel.power this cell pvt in_slew load_cap
      = Normal (findValue model cell pvt
                  (operating_point model in_slew load_cap).1.1
                  (operating_point model in_slew load_cap).1.2
                  (operating_point model in_slew load_cap).2))
  /\ (order model = 0%Z ->
      InternalPowerModel.power this cell pvt in_slew load_cap
      = Normal (findValue model cell pvt float_zero float_zero float_zero)).
Proof.
  intros Hm.
  assert (Hwf : well_formed model = true ->
      InternalPowerModel.power this cell pvt in_slew load_cap
      = Normal (findValue model cell pvt
                  (operating_point model in_slew load_cap).1.1
                  (operating_point model in_slew load_cap).1.2
                  (operating_point model in_slew load_cap).2)).
  { intros Hw. rewrite (power_unfold _ _ _ _ _ _ Hm).
    by rewrite (findAxisValues_well_formed _ _ _ _ _ Hm Hw). }
  split; [split|split; [exact Hwf|]].
  - intros [v Hv]. rewrite (power_unfold _ _ _ _ _ _ Hm) in Hv.
    destruct (InternalPowerModel.findAxisValues this in_slew load_cap unassigned)
      as [r| |] eqn:Hr; [|done..].
    by apply (findAxisValues_ill_formed _ _ _ _ _ _ Hm Hr).
  - intros Hw. eexists. by apply Hwf.
  - intros Ho. rewrite Hwf.
    + unfold operating_point, axes_read. by rewrite Ho.
    + unfold well_formed, supported_order, axes_read. rewrite Ho. done.
Qed.

(** X4: on a table whose order is not 0 to 3, [power] and [reportPower]
    report error 225 once, the three locals being 0.0; when the report
    returns they go on and call the table engine on (0.0, 0.0, 0.0). *)
Theorem queries_on_unsupported_order (this : InternalPowerModel.t)
    (model : TableModel) (w : World) (c : LibertyCell) (cell : loc) (pvt : ptr)
    (in_slew load_cap : float) (digits : Z) :
  InternalPowerModel.model_ this = Some model ->
  (order model < 0 \/ 3 < order model)%Z ->
  cells w !! cell = Some c ->
  InternalPowerModel.power this cell pvt in_slew load_cap
  = Critical 225 "unsupported table order" zeros
      (Normal (findValue model cell pvt float_zero float_zero float_zero))
  /\ InternalPowerModel.reportPower w this cell pvt in_slew load_cap digits
     = Critical 225 "unsupported table order" zeros
         (Normal (reportValue model "Power" cell pvt float_zero None
                    float_zero float_zero
                    (powerUnit (units (libertyLibrary c))) digits)).
Proof.
  intros Hm Ho Hc.
  rewrite (power_unfold _ _ _ _ _ _ Hm), (reportPower_unfold _ _ _ _ _ _ Hm).
  unfold InternalPowerModel.findAxisValues. rewrite Hm.
  rewrite order_default by exact Ho. simpl. by rewrite Hc.
Qed.

(** An axis [checkAxis] accepts is one [axisValue] has no branch for. *)
Lemma checkAxis_not_resolvable (a : TableAxis) :
  InternalPowerModel.checkAxis a = true -> resolvable (Some a) = false.
Proof.
  unfold InternalPowerModel.checkAxis, resolvable.
  destruct (variable a); done.
Qed.

Lemma checkAxes_axis1 (model : TableModel) (a : TableAxis) :
  InternalPowerModel.checkAxes model = true ->
  axis1 model = Some a ->
  InternalPowerModel.checkAxis a = true.
Proof.
  unfold InternalPowerModel.checkAxes. intros Hc Ha. rewrite Ha in Hc.
  destruct (InternalPowerModel.checkAxis a); [done|].
  by destruct (axis2 model).
Qed.

(** A well-formed table of order 1 to 3 has a resolvable first axis. *)
Lemma well_formed_axis1 (model : TableModel) :
  well_formed model = true ->
  order model = 0%Z \/ resolvable (axis1 model) = true.
Proof.
  unfold well_formed, supported_order.
  destruct (order_cases model) as [Ho|[Ho|[Ho|[Ho|Ho]]]];
    [by left | unfold axes_read; rewrite Ho; simpl .. | ].
  - rewrite !andb_true_iff. tauto.
  - rewrite !andb_true_iff. tauto.
  - rewrite !andb_true_iff. tauto.
  - rewrite bool_decide_eq_false_2 by lia. done.
Qed.

(** X5: the kinds [checkAxes] accepts and the kinds [axisValue] resolves
    are disjoint: a table that passes [checkAxes] is looked up by [power]
    without a report or a fault only if its order is 0. *)
Theorem checkAxes_tables_do_not_resolve (this : InternalPowerModel.t)
    (model : TableModel) (cell : loc) (pvt : ptr) (in_slew load_cap v : float) :
  InternalPowerModel.model_ this = Some model ->
  InternalPowerModel.checkAxes model = true ->
  InternalPowerModel.power this cell pvt in_slew load_cap = Normal v ->
  order model = 0%Z.
Proof.
  intros Hm Hc Hp. rewrite (power_unfold _ _ _ _ _ _ Hm) in Hp.
  destruct (InternalPowerModel.findAxisValues this in_slew load_cap unassigned)
    as [r| |] eqn:Hr; [|done..].
  apply (findAxisValues_ill_formed _ _ _ _ _ _ Hm) in Hr.
  destruct (well_formed_axis1 _ Hr) as [Ho|H1]; [done|].
  destruct (axis1 model) as [a1|] eqn:Ha; [|done].
  apply (checkAxes_axis1 _ _ Hc) in Ha.
  by rewrite (checkAxis_not_resolvable _ Ha) in H1.
Qed.

(** ** Teardown, step by step *)

Lemma is_model_live_eq (w : World) (p : ptr) : is_model w p = live model_obj w p.
Proof. destruct p as [l|]; simpl; [|done]. by destruct (objs w !! l) as [[]|]. Qed.

Lemma is_expr_live_eq (w : World) (p : ptr) : is_expr w p = live expr_obj w p.
Proof. destruct p as [l|]; simpl; [|done]. by destruct (objs w !! l) as [[]|]. Qed.

Lemma is_string_live_eq (w : World) (p : ptr) : is_string w p = live string_obj w p.
Proof. destruct p as [l|]; simpl; [|done]. by destruct (objs w !! l) as [[]|]. Qed.

Lemma after_null (mk : loc -> Release) (w : World) : after mk None w = w.
Proof. destruct w. unfold after. simpl. by rewrite app_nil_r. Qed.

(** Releasing another pointer does not change whether [q] is live. *)
Lemma live_after_ne (k : Object -> bool) (mk : loc -> Release) (p q : ptr) (w : World) :
  q <> p -> live k (after mk p w) q = live k w q.
Proof.
  destruct p as [l'|], q as [l|]; simpl; try done.
  intros Hne. rewrite lookup_delete_ne; [done | congruence].
Qed.

(** Releasing a live object of another class does not change it either. *)
Lemma live_after_other (k k' : Object -> bool) (mk : loc -> Release) (p q : ptr)
    (w : World) :
  (forall o, k' o = true -> k o = false) ->
  live k' w p = true ->
  live k (after mk p w) q = live k w q.
Proof.
  intros Hk Hp. destruct (decide (q = p)) as [->|Hne]; [|by apply live_after_ne].
  destruct p as [l|]; simpl in *; [|done].
  rewrite lookup_delete_eq. destruct (objs w !! l) as [o|]; [|done].
  symmetry. by apply Hk.
Qed.

Lemma bind_Faulted {St A B} (m : M St A) (k : A -> M St B) (st : St) (f : Fault) :
  m st = Faulted f -> bind m k st = Faulted f.
Proof. intros H. unfold bind. by rewrite H. Qed.

Lemma delete_model_ok (w : World) (p : ptr) :
  is_model w p = true -> delete_model p w = Normal (tt, after DeleteModel p w).
Proof.
  destruct p as [l|]; [|by rewrite after_null].
  intros [m Hm]%is_model_live. by eapply delete_model_live.
Qed.

Lemma delete_model_ko (w : World) (p : ptr) :
  is_model w p = false ->
  exists l, p = Some l /\ delete_model p w = Faulted (Dangling l).
Proof.
  destruct p as [l|]; [|done]. simpl. intros H. exists l. split; [done|].
  unfold delete_model, bind, get. simpl.
  by destruct (objs w !! l) as [[]|].
Qed.


Lemma stringDelete_ko (w : World) (p : ptr) :
  is_string w p = false ->
  exists l, p = Some l /\ stringDelete p w = Faulted (Dangling l).
Proof.
  destruct p as [l|]; [|done]. simpl. intros H. exists l. split; [done|].
  unfold stringDelete, bind, get. simpl.
  by destruct (objs w !! l) as [[]|].
Qed.

Lemma delete_when_ok (w : World) (p : ptr) :
  is_expr w p = true ->
  match p with Some e => deleteSubexprs e | None => ret tt end w
  = Normal (tt, after DeleteSubexprs p w).
Proof.
  destruct p as [l|]; [|by rewrite after_null].
  intros Hl%is_expr_live. by apply deleteSubexprs_live.
Qed.

Lemma delete_when_ko (w : World) (p : ptr) :
  is_expr w p = false ->
  exists l, p = Some l
            /\ match p with Some e => deleteSubexprs e | None => ret tt end w
               = Faulted (Dangling l).
Proof.
  destruct p as [l|]; [|done]. simpl. intros H. exists l. split; [done|].
  unfold deleteSubexprs, bind, get. simpl.
  by destruct (objs w !! l) as [[]|].
Qed.

Lemma fall_if_distinct_ne (a : InternalPowerAttrs.t) :
  fall_if_distinct a = None
  \/ fall_if_distinct a <> at0 (InternalPowerAttrs.models_ a).
Proof. unfold fall_if_distinct. case_decide; auto. Qed.

(** The two model releases of [deleteContents]. *)
Lemma delete_fall_eq (a : InternalPowerAttrs.t) :
  (if decide (at1 (InternalPowerAttrs.models_ a) <> at0 (InternalPowerAttrs.models_ a))
   then delete_model (at1 (InternalPowerAttrs.models_ a))
   else ret tt)
  = delete_model (fall_if_distinct a).
Proof. unfold fall_if_distinct. by repeat case_decide. Qed.

Local Opaque delete_model deleteSubexprs stringDelete.

Lemma is_model_fall_if_distinct (w : World) (a : InternalPowerAttrs.t) :
  is_model w (at0 (InternalPowerAttrs.models_ a)) = true ->
  is_model (after DeleteModel (at0 (InternalPowerAttrs.models_ a)) w) (fall_if_distinct a)
  = is_model w (fall_if_distinct a).
Proof.
  intros _. rewrite !is_model_live_eq.
  destruct (fall_if_distinct_ne a) as [->|Hne]; [done|].
  by apply live_after_ne.
Qed.

Lemma is_model_fall (w : World) (a : InternalPowerAttrs.t) :
  is_model w (at0 (InternalPowerAttrs.models_ a)) = true ->
  is_model w (fall_if_distinct a) = is_model w (at1 (InternalPowerAttrs.models_ a)).
Proof. unfold fall_if_distinct. case_decide as H; [|done]. by rewrite H. Qed.

(** A teardown on a builder that is not intact stops at the first field,
    in the order rise model, fall model, condition, pg-pin name, that is
    not live. *)
Lemma deleteContents_faults (w : World) (a : InternalPowerAttrs.t) :
  intact w a = false ->
  exists l, owned a l /\ InternalPowerAttrs.deleteContents a w = Faulted (Dangling l).
Proof.
  unfold intact, owned, InternalPowerAttrs.deleteContents. simpl.
  unfold RiseFall.riseIndex, RiseFall.fallIndex. simpl.
  rewrite delete_fall_eq. intros Hi.
  destruct (is_model w (at0 (InternalPowerAttrs.models_ a))) eqn:Hr.
  2: { destruct (delete_model_ko _ _ Hr) as (l & Hl & Hrun).
       exists l. split; [auto|]. by apply bind_Faulted. }
  erewrite bind_Normal by (by apply delete_model_ok).
  pose proof (is_model_fall_if_distinct _ _ Hr) as Hf'.
  rewrite (is_model_fall _ _ Hr) in Hf'.
  destruct (is_model w (at1 (InternalPowerAttrs.models_ a))) eqn:Hf.
  2: { destruct (delete_model_ko _ _ Hf') as (l & Hl & Hrun).
       exists l. split; [|by apply bind_Faulted].
       right; left. revert Hl. unfold fall_if_distinct. by case_decide. }
  erewrite bind_Normal by (by apply delete_model_ok).
  set (w2 := after DeleteModel (fall_if_distinct a) (after DeleteModel _ w)).
  assert (He' : is_expr w2 (InternalPowerAttrs.when_ a)
                = is_expr w (InternalPowerAttrs.when_ a)).
  { rewrite !is_expr_live_eq. unfold w2.
    rewrite (live_after_other expr_obj model_obj); [|by intros []|by rewrite <- is_model_live_eq].
    apply (live_after_other expr_obj model_obj); [by intros []|by rewrite <- is_model_live_eq]. }
  assert (Hp' : is_string w2 (InternalPowerAttrs.related_pg_pin_ a)
                = is_string w (InternalPowerAttrs.related_pg_pin_ a)).
  { rewrite !is_string_live_eq. unfold w2.
    rewrite (live_after_other string_obj model_obj); [|by intros []|by rewrite <- is_model_live_eq].
    apply (live_after_other string_obj model_obj); [by intros []|by rewrite <- is_model_live_eq]. }
  destruct (is_expr w (InternalPowerAttrs.when_ a)) eqn:He.
  2: { destruct (delete_when_ko _ _ He') as (l & Hl & Hrun).
       exists l. split; [auto|]. by apply bind_Faulted. }
  erewrite bind_Normal by (by apply delete_when_ok).
  simpl in Hi.
  assert (Hp'' : is_string (after DeleteSubexprs (InternalPowerAttrs.when_ a) w2)
                           (InternalPowerAttrs.related_pg_pin_ a) = false).
  { rewrite is_string_live_eq.
    rewrite (live_after_other string_obj expr_obj);
      [|by intros []|by rewrite <- is_expr_live_eq].
    by rewrite <- is_string_live_eq, Hp'. }
  destruct (stringDelete_ko _ _ Hp'') as (l & Hl & Hrun).
  exists l. split; [auto|done].
Qed.

Local Transparent delete_model deleteSubexprs stringDelete.


(** An object the builder owns is live while the builder is intact. *)
Lemma intact_owned (w : World) (a : InternalPowerAttrs.t) (l : loc) :
  intact w a = true -> owned a l -> is_Some (objs w !! l).
Proof.
  unfold intact, owned. rewrite !andb_true_iff.
  intros [[[Hr Hf] He] Hp] [H|[H|[H|H]]]; rewrite H in *; simpl in *;
    by destruct (objs w !! l).
Qed.

(** X7: a second teardown of the same builder is a double free: unless the
    builder owns nothing, [deleteContents] after [deleteContents] stops on
    one of the objects the first call released. *)
Theorem deleteContents_twice (w : World) (a : InternalPowerAttrs.t) (l0 : loc) :
  intact w a = true ->
  owned a l0 ->
  exists l,
    owned a l
    /\ (InternalPowerAttrs.deleteContents a ;; InternalPowerAttrs.deleteContents a) w
       = Faulted (Dangling l).
Proof.
  intros Hi Ho.
  erewrite bind_Normal by (by apply deleteContents_run).
  apply deleteContents_faults.
  apply not_true_is_false. intros Hi'.
  destruct (intact_owned _ _ _ Hi' Ho) as [o Hl]. cbn [objs] in Hl.
  by rewrite (teardown_objs_owned _ _ _ Ho) in Hl.
Qed.

(** X8: [deleteContents] leaves the store as it is exactly when the builder
    owns nothing; so it does on a builder fresh from its constructor. *)
Theorem deleteContents_nothing (w : World) (a : InternalPowerAttrs.t) :
  intact w a = true ->
  (InternalPowerAttrs.deleteContents a w = Normal (tt, w) <-> forall l, ~ owned a l)
  /\ InternalPowerAttrs.deleteContents InternalPowerAttrs.ctor w = Normal (tt, w).
Proof.
  intros Hi. split; [split|].
  - intros Hrun l Ho. rewrite (deleteContents_run _ _ Hi) in Hrun.
    destruct (intact_owned _ _ _ Hi Ho) as [o Hl].
    injection Hrun as Hw. rewrite <- Hw in Hl. cbn [objs] in Hl.
    by rewrite (teardown_objs_owned _ _ _ Ho) in Hl.
  - intros Hn. rewrite (deleteContents_run _ _ Hi).
    destruct a as [[e|] [[r|] [f|]] [p|]]; unfold owned in Hn; simpl in Hn;
      try (exfalso; by eapply Hn; eauto).
    unfold teardown_objs, teardown_releases. simpl.
    destruct w. simpl. by rewrite app_nil_r.
  - by destruct w.
Qed.

(** ** The setters of the builder *)

(** X9: [setModel] then [model]: the edge that was set reads back the
    model that was stored, the other edge, the condition and the pg-pin
    name read back what they held; [setWhen] changes the condition only. *)
Theorem setModel_then_model (a : InternalPowerAttrs.t) (rf rf' : RiseFall.t)
    (m e : ptr) :
  InternalPowerAttrs.model (InternalPowerAttrs.setModel a rf m) rf = m
  /\ (rf' <> rf ->
      InternalPowerAttrs.model (InternalPowerAttrs.setModel a rf m) rf'
      = InternalPowerAttrs.model a rf')
  /\ InternalPowerAttrs.when (InternalPowerAttrs.setModel a rf m)
     = InternalPowerAttrs.when a
  /\ InternalPowerAttrs.relatedPgPin (InternalPowerAttrs.setModel a rf m)
     = InternalPowerAttrs.relatedPgPin a
  /\ InternalPowerAttrs.when (InternalPowerAttrs.setWhen a e) = e
  /\ InternalPowerAttrs.model (InternalPowerAttrs.setWhen a e) rf'
     = InternalPowerAttrs.model a rf'
  /\ InternalPowerAttrs.relatedPgPin (InternalPowerAttrs.setWhen a e)
     = InternalPowerAttrs.relatedPgPin a.
Proof.
  destruct a as [w0 [r f] p]. unfold InternalPowerAttrs.model.
  repeat split; try (by destruct rf); by destruct rf, rf'.
Qed.










(** ** From the builder to the record *)

(** The run of the constructor on a live cell. *)
Lemma ctor_run (indeterminate : EdgeArray ptr) (cell : loc)
    (port related_port : LibertyPort.t) (attrs : InternalPowerAttrs.t)
    (w : World) (c : LibertyCell) :
  cells w !! cell = Some c ->
  let this := {| InternalPower.port_ := port;
                 InternalPower.related_port_ := related_port;
                 InternalPower.when_ := InternalPowerAttrs.when_ attrs;
                 InternalPower.models_ := InternalPowerAttrs.models_ attrs;
                 InternalPower.related_pg_pin_ :=
                   InternalPowerAttrs.related_pg_pin_ attrs |} in
  InternalPower.ctor indeterminate cell port related_port attrs w
  = Normal (this,
            {| objs := objs w;
               released := released w;
               cells := <[cell := {| libertyLibrary := libertyLibrary c;
                                     internal_powers_ := internal_powers_ c ++ [this] |}]>
                          (cells w) |}).
Proof.
  intros Hc this. unfold InternalPower.ctor. rewrite ctor_models.
  unfold addInternalPower, bind, get, put, ret. simpl. by rewrite Hc.
Qed.

(** X12: a record answers [power] with the models of the builder it was
    made from: 0.0 on an edge the builder had no model for, the [power] of
    the model of the builder on the other edges, on the cell of the port
    of the record, which is what [libertyCell] returns, whatever cell the
    record was registered with. *)
Theorem power_of_built_record (indeterminate : EdgeArray ptr) (cell : loc)
    (port related_port : LibertyPort.t) (attrs : InternalPowerAttrs.t)
    (w : World) (c : LibertyCell) :
  cells w !! cell = Some c ->
  exists this w',
    InternalPower.ctor indeterminate cell port related_port attrs w = Normal (this, w')
    /\ InternalPower.libertyCell this = LibertyPort.libertyCell port
    /\ forall rf pvt in_slew load_cap,
         InternalPower.power w' this rf pvt in_slew load_cap
         = match InternalPowerAttrs.model attrs rf with
           | None => Normal float_zero
           | Some l =>
               match objs w !! l with
               | Some (PowerModelObj m) =>
                   InternalPowerModel.power m (LibertyPort.libertyCell port)
                                            pvt in_slew load_cap
               | _ => Faulted (Dangling l)
               end
           end.
Proof.
  intros Hc. eexists _, _. split; [by apply ctor_run|]. done.
Qed.

(** X13: the record shares the models of its builder: once the builder is
    torn down, [power] of the record on an edge that had a model reads a
    model that is gone. *)
Theorem power_after_teardown (indeterminate : EdgeArray ptr) (cell : loc)
    (port related_port : LibertyPort.t) (attrs : InternalPowerAttrs.t)
    (w : World) (c : LibertyCell) (rf : RiseFall.t) (l : loc) :
  cells w !! cell = Some c ->
  intact w attrs = true ->
  InternalPowerAttrs.model attrs rf = Some l ->
  exists this w1 w2,
    InternalPower.ctor indeterminate cell port related_port attrs w = Normal (this, w1)
    /\ InternalPowerAttrs.deleteContents attrs w1 = Normal (tt, w2)
    /\ forall pvt in_slew load_cap,
         InternalPower.power w2 this rf pvt in_slew load_cap = Faulted (Dangling l).
Proof.
  intros Hc Hi Hm. eexists _, _, _.
  split; [by apply ctor_run|].
  split; [by apply deleteContents_run|].
  intros pvt in_slew load_cap. unfold InternalPower.power. simpl.
  unfold InternalPowerAttrs.model in Hm. rewrite Hm.
  rewrite teardown_objs_owned; [done|].
  unfold owned. destruct rf; simpl in Hm; auto.
Qed.

(** X14: records are registered in the order they are constructed: two
    constructions on a cell append the two records to its internal powers,
    the first before the second, and touch no other cell and no object. *)
Theorem ctor_twice (i1 i2 : EdgeArray ptr) (cell : loc)
    (p1 q1 p2 q2 : LibertyPort.t) (a1 a2 : InternalPowerAttrs.t)
    (w : World) (c : LibertyCell) :
  cells w !! cell = Some c ->
  exists r1 r2 w',
    (r1 <- InternalPower.ctor i1 cell p1 q1 a1 ;;
     r2 <- InternalPower.ctor i2 cell p2 q2 a2 ;;
     ret (r1, r2)) w = Normal ((r1, r2), w')
    /\ InternalPower.models_ r1 = InternalPowerAttrs.models_ a1
    /\ InternalPower.models_ r2 = InternalPowerAttrs.models_ a2
    /\ (internal_powers_ <$> cells w' !! cell) = Some (internal_powers_ c ++ [r1; r2])
    /\ (forall cell', cell' <> cell -> cells w' !! cell' = cells w !! cell')
    /\ objs w' = objs w
    /\ released w' = released w.
Proof.
  intros Hc. eexists _, _, _. split.
  - erewrite bind_Normal by (by apply ctor_run).
    erewrite bind_Normal by (apply ctor_run; simpl; apply lookup_insert_eq).
    reflexivity.
  - simpl. repeat split.
    + rewrite lookup_insert_eq. simpl. by rewrite <- app_assoc.
    + intros cell' Hne. by rewrite !lookup_insert_ne.
Qed.

(** ** Instances of the further properties *)

Lemma queries_fault_only_on_null_axis_witness :
  InternalPowerModel.model_ Cases.no_axis = Some Cases.no_axis_table
  /\ faulted (InternalPowerModel.power Cases.no_axis 7%positive None
                                       Sample.f1_5 Sample.f2_0)
     = Some (NullDeref TableAxis_ptr).
Proof.
  split; [reflexivity|].
  exact (proj1 (queries_fault_only_on_null_axis Cases.no_axis Cases.no_axis_table
                  Sample.world 7%positive None Sample.f1_5 Sample.f2_0 3%Z eq_refl)).
Defined.

Lemma power_well_formed_witness :
  InternalPowerModel.model_ Sample.order2
  = Some (Sample.table 2 (Some Sample.slew_axis) (Some Sample.load_axis) None)
  /\ InternalPowerModel.power Sample.order2 7%positive None Sample.f0_8 Sample.f3_2
     = Normal Sample.f0_8.
Proof.
  split; [reflexivity|].
  exact (proj1 (proj2 (power_well_formed Sample.order2 _ 7%positive None
                         Sample.f0_8 Sample.f3_2 eq_refl)) eq_refl).
Defined.

Lemma queries_on_unsupported_order_witness :
  (InternalPowerModel.model_ Sample.order4
   = Some (Sample.table 4 (Some Sample.slew_axis) (Some Sample.load_axis) None)
   /\ (4 < 0 \/ 3 < 4)%Z
   /\ cells Sample.world !! 7%positive = Some Cases.cell)
  /\ InternalPowerModel.power Sample.order4 7%positive None Sample.f0_8 Sample.f3_2
     = Critical 225 "unsupported table order" zeros (Normal float_zero).
Proof.
  split; [split; [reflexivity|split; [right; reflexivity|reflexivity]]|].
  exact (proj1 (queries_on_unsupported_order Sample.order4 _ Sample.world Cases.cell
                  7%positive None Sample.f0_8 Sample.f3_2 3%Z
                  eq_refl (or_intror eq_refl) eq_refl)).
Defined.

Lemma checkAxes_tables_do_not_resolve_witness :
  (InternalPowerModel.model_ Cases.constant = Some Cases.constant_table
   /\ InternalPowerModel.checkAxes Cases.constant_table = true
   /\ InternalPowerModel.power Cases.constant 7%positive None Sample.f0_8 Sample.f3_2
      = Normal float_zero)
  /\ order Cases.constant_table = 0%Z.
Proof.
  split; [repeat split|].
  exact (checkAxes_tables_do_not_resolve Cases.constant Cases.constant_table
           7%positive None Sample.f0_8 Sample.f3_2 float_zero
           eq_refl eq_refl eq_refl).
Defined.

Lemma deleteContents_twice_witness :
  (intact Sample.world Sample.shared = true /\ owned Sample.shared 1%positive)
  /\ exists l,
       owned Sample.shared l
       /\ (InternalPowerAttrs.deleteContents Sample.shared ;;
           InternalPowerAttrs.deleteContents Sample.shared) Sample.world
          = Faulted (Dangling l).
Proof.
  split; [split; [reflexivity|left; reflexivity]|].
  exact (deleteContents_twice Sample.world Sample.shared 1%positive
           eq_refl (or_introl eq_refl)).
Defined.

Lemma deleteContents_nothing_witness :
  intact Sample.world InternalPowerAttrs.ctor = true
  /\ (InternalPowerAttrs.deleteContents InternalPowerAttrs.ctor Sample.world
      = Normal (tt, Sample.world)
      <-> forall l, ~ owned InternalPowerAttrs.ctor l).
Proof.
  split; [reflexivity|].
  exact (proj1 (deleteContents_nothing Sample.world InternalPowerAttrs.ctor eq_refl)).
Defined.



Lemma power_of_built_record_witness :
  cells Sample.world !! 7%positive = Some Cases.cell
  /\ exists this w',
       InternalPower.ctor Cases.junk 7%positive Sample.port Sample.port
                          Sample.distinct Sample.world = Normal (this, w')
       /\ InternalPower.libertyCell this = 7%positive
       /\ forall rf pvt in_slew load_cap,
            InternalPower.power w' this rf pvt in_slew load_cap
            = match InternalPowerAttrs.model Sample.distinct rf with
              | None => Normal float_zero
              | Some l =>
                  match objs Sample.world !! l with
                  | Some (PowerModelObj m) =>
                      InternalPowerModel.power m 7%positive pvt in_slew load_cap
                  | _ => Faulted (Dangling l)
                  end
              end.
Proof.
  split; [reflexivity|].
  exact (power_of_built_record Cases.junk 7%positive Sample.port Sample.port
           Sample.distinct Sample.world Cases.cell eq_refl).
Defined.

Lemma power_after_teardown_witness :
  (cells Sample.world !! 7%positive = Some Cases.cell
   /\ intact Sample.world Sample.distinct = true
   /\ InternalPowerAttrs.model Sample.distinct RiseFall.fall = Some 4%positive)
  /\ exists this w1 w2,
       InternalPower.ctor Cases.junk 7%positive Sample.port Sample.port
                          Sample.distinct Sample.world = Normal (this, w1)
       /\ InternalPowerAttrs.deleteContents Sample.distinct w1 = Normal (tt, w2)
       /\ forall pvt in_slew load_cap,
            InternalPower.power w2 this RiseFall.fall pvt in_slew load_cap
            = Faulted (Dangling 4%positive).
Proof.
  split; [repeat split|].
  exact (power_after_teardown Cases.junk 7%positive Sample.port Sample.port
           Sample.distinct Sample.world Cases.cell RiseFall.fall 4%positive
           eq_refl eq_refl eq_refl).
Defined.

Lemma ctor_twice_witness :
  cells Sample.world !! 7%positive = Some Cases.cell
  /\ exists r1 r2 w',
       (r1 <- InternalPower.ctor Cases.junk 7%positive Sample.port Sample.port
                                 Sample.shared ;;
        r2 <- InternalPower.ctor Cases.junk 7%positive Sample.port Sample.port
                                 Sample.distinct ;;
        ret (r1, r2)) Sample.world = Normal ((r1, r2), w')
       /\ InternalPower.models_ r1 = InternalPowerAttrs.models_ Sample.shared
       /\ InternalPower.models_ r2 = InternalPowerAttrs.models_ Sample.distinct
       /\ (internal_powers_ <$> cells w' !! 7%positive) = Some ([] ++ [r1; r2])
       /\ (forall cell', cell' <> 7%positive ->
             cells w' !! cell' = cells Sample.world !! cell')
       /\ objs w' = objs Sample.world
       /\ released w' = released Sample.world.
Proof.
  split; [reflexivity|].
  exact (ctor_twice Cases.junk Cases.junk 7%positive Sample.port Sample.port
           Sample.port Sample.port Sample.shared Sample.distinct Sample.world
           Cases.cell eq_refl).
Defined.
